(** * ui-proj: the agent orchestrator and its session context store

    A shallow embedding of [app/storage/context_store.py] and
    [app/orchestrator/agent_orchestrator.py], of the endpoint that
    calls the orchestrator ([app/api/router.py]) and of the parts of the
    GitHub and outreach agents that decide what they return
    ([app/agents/github_agent.py], [app/agents/outreach.py]).

    Python dictionaries are finite maps ([gmap string _]); methods that
    mutate [self] are computations in a state-and-exception monad; every
    [try ... except Exception] of the source is a [try_except] here.
    A handler is handed the context mapping itself and may change it in
    place, so a handler is a computation on that mapping.  The methods
    [strip] and [lower] of the language's strings are parameters.
    Clock readings ([time.time()]) are exact rationals handed to the
    operation in the order in which the source reads the clock; the
    rounding of floating-point seconds is not part of the model. *)

From Stdlib Require Import QArith Lqa Ascii String.
From stdpp Require Import gmap strings list fin_maps.


(** ** Python values *)

(** The values the orchestrator looks into: [None], booleans, integers,
    strings and string-keyed mappings (the [Any] of [Dict[str, Any]]). *)
#[warnings="-register-all"]
Inductive value : Type :=
  | VNone
  | VBool (b : bool)
  | VInt (n : Z)
  | VStr (s : string)
  | VDict (d : gmap string value).

(** Truth value of an object, as [if x:] tests it. *)
Definition truthy (v : value) : bool :=
  match v with
  | VNone => false
  | VBool b => b
  | VInt n => negb (n =? 0)%Z
  | VStr s => negb (String.eqb s "")
  | VDict d => negb (bool_decide (d = ∅))
  end.

Definition dict_truthy {A} (d : gmap string A) : bool := negb (bool_decide (size d = 0%nat)).
Definition str_truthy (s : string) : bool := negb (String.eqb s "").

(** ** Exceptions *)

(** An exception carries its class name and the text [str(e)] yields. *)
Inductive exn : Type := Exception (cls : string) (msg : string).

Definition str (e : exn) : string := match e with Exception _ msg => msg end.

Inductive result (A : Type) : Type :=
  | Return (a : A)
  | Raise (e : exn).
Arguments Return {A} a.
Arguments Raise {A} e.

Module Res.
Definition bind {A B} (m : result A) (k : A → result B) : result B :=
  match m with
  | Return a => k a
  | Raise e => Raise e
  end.

(** [try: body / except Exception as e: handler e] *)
Definition try_except {A} (body : result A) (handler : exn → result A) : result A :=
  match body with
  | Return a => Return a
  | Raise e => handler e
  end.
End Res.

(** Computations over a mutable object of type [S]: they end with a value
    or an exception, and the mutations made before an exception stay. *)
Definition M (S A : Type) : Type := S → result A * S.

Module St.
Definition ret {S A} (a : A) : M S A := λ s, (Return a, s).
Definition raise {S A} (e : exn) : M S A := λ s, (Raise e, s).
Definition bind {S A B} (m : M S A) (k : A → M S B) : M S B :=
  λ s, match m s with
       | (Return a, s') => k a s'
       | (Raise e, s') => (Raise e, s')
       end.
Definition get_state {S} : M S S := λ s, (Return s, s).
Definition modify {S} (f : S → S) : M S unit := λ s, (Return tt, f s).
Definition lift {S A} (r : result A) : M S A := λ s, (r, s).
Definition try_except {S A} (body : M S A) (handler : exn → M S A) : M S A :=
  λ s, match body s with
       | (Return a, s') => (Return a, s')
       | (Raise e, s') => handler e s'
       end.
End St.

Declare Scope py_scope.
Delimit Scope py_scope with py.
Notation "'let!' x ':=' m 'in' k" := (St.bind m (λ x, k))
  (at level 10, x name, m at level 100, k at level 200) : py_scope.
Notation "m ';;' k" := (St.bind m (λ _, k))
  (at level 100, k at level 200, right associativity) : py_scope.
Notation "'let?' x ':=' m 'in' k" := (Res.bind m (λ x, k))
  (at level 10, x name, m at level 100, k at level 200).

(** ** The session context store ([app/storage/context_store.py]) *)

(** The Redis client and the JSON codec are outside the repository: the
    store is written against their interfaces.  Any call may raise. *)
Class RedisClient (R : Type) : Type := {
  redis_setex : string → Z → string → M R unit;
  redis_get : string → M R (option string);
  redis_expire : string → Z → M R unit;
  redis_delete : string → M R unit;
}.

Class JsonCodec : Type := {
  json_dumps : gmap string value → result string;
  json_loads : string → result (gmap string value);
}.

Record ContextStore (R : Type) : Type := mkContextStore {
  use_redis : bool;
  context_ttl : Z;
  redis_client : R;
  memory_store : gmap string (gmap string value);
  memory_timestamps : gmap string Q;
}.
Arguments mkContextStore {R}.
Arguments use_redis {R}.
Arguments context_ttl {R}.
Arguments redis_client {R}.
Arguments memory_store {R}.
Arguments memory_timestamps {R}.

(** [a > b] on clock readings. *)
Definition Qgtb (a b : Q) : bool := negb (Qle_bool a b).

Section ContextStore.
Context {R : Type} {redis : RedisClient R} {json : JsonCodec}.
Implicit Types (cs : ContextStore R) (sid : string) (ctx : gmap string value).

Definition set_memory_store (f : gmap string (gmap string value) → gmap string (gmap string value))
    (cs : ContextStore R) : ContextStore R :=
  mkContextStore (use_redis cs) (context_ttl cs) (redis_client cs)
    (f (memory_store cs)) (memory_timestamps cs).

Definition set_memory_timestamps (f : gmap string Q → gmap string Q)
    (cs : ContextStore R) : ContextStore R :=
  mkContextStore (use_redis cs) (context_ttl cs) (redis_client cs)
    (memory_store cs) (f (memory_timestamps cs)).

(** A call on [self.redis_client]. *)
Definition on_redis {A} (call : M R A) : M (ContextStore R) A :=
  λ cs, let '(r, client) := call (redis_client cs) in
        (r, mkContextStore (use_redis cs) (context_ttl cs) client
              (memory_store cs) (memory_timestamps cs)).

(** [__init__]: [USE_REDIS] and [CONTEXT_TTL_SECONDS] come from the
    environment (defaults: in-memory, 3600 seconds). *)
Definition __init__ (env_use_redis : bool) (env_ttl : Z) (client : R) : ContextStore R :=
  mkContextStore env_use_redis env_ttl client ∅ ∅.

(** The keys [_clean_expired_sessions] collects in its first loop. *)
Definition expired_sessions (ttl : Z) (current_time : Q) (timestamps : gmap string Q) : list string :=
  (filter (λ kt : string * Q, Qgtb (current_time - kt.2) (inject_Z ttl) = true)
          (map_to_list timestamps)).*1.

(** The body of its second loop: both [del] statements, each guarded by
    a membership test ([delete] leaves a map without the key as it is). *)
Definition drop_session (session_id : string) (cs : ContextStore R) : ContextStore R :=
  set_memory_timestamps (delete session_id) (set_memory_store (delete session_id) cs).

Definition _clean_expired_sessions (current_time : Q) (cs : ContextStore R) : ContextStore R :=
  if use_redis cs then cs
  else
    foldl (λ cs session_id, drop_session session_id cs) cs
          (expired_sessions (context_ttl cs) current_time (memory_timestamps cs)).

(** [store_context]; [now] is the reading stored as the timestamp,
    [sweep_now] the one the occasional sweep takes afterwards. *)
Definition store_context (session_id : string) (context : gmap string value)
    (now sweep_now : Q) : M (ContextStore R) bool :=
  St.try_except
    (let! cs := St.get_state in
     (if use_redis cs then
        let! payload := St.lift (json_dumps context) in
        on_redis (redis_setex ("context:" +:+ session_id) (context_ttl cs) payload)
      else
        St.modify (set_memory_store <[session_id := context]>);;
        St.modify (set_memory_timestamps <[session_id := now]>);;
        let! cs := St.get_state in
        if (Z.of_nat (size (memory_store cs)) mod 10 =? 0)%Z
        then St.modify (_clean_expired_sessions sweep_now)
        else St.ret tt);;
     St.ret true)%py
    (λ e, St.ret false).

(** [get_context]; [now] is the reading compared with the timestamp,
    [refresh_now] the one written back on a hit. *)
Definition get_context (session_id : string) (now refresh_now : Q)
    : M (ContextStore R) (option (gmap string value)) :=
  St.try_except
    (let! cs := St.get_state in
     if use_redis cs then
       let! data := on_redis (redis_get ("context:" +:+ session_id)) in
       match data with
       | Some bytes =>
           if str_truthy bytes then
             on_redis (redis_expire ("context:" +:+ session_id) (context_ttl cs));;
             let! loaded := St.lift (json_loads bytes) in
             St.ret (Some loaded)
           else St.ret None
       | None => St.ret None
       end
     else
       match memory_store cs !! session_id with
       | Some stored =>
           match memory_timestamps cs !! session_id with
           | Some timestamp =>
               if Qle_bool (now - timestamp) (inject_Z (context_ttl cs)) then
                 St.modify (set_memory_timestamps <[session_id := refresh_now]>);;
                 St.ret (Some stored)
               else
                 St.modify (set_memory_store (delete session_id));;
                 St.modify (set_memory_timestamps (delete session_id));;
                 St.ret None
           | None => St.raise (Exception "KeyError" ("'" +:+ session_id +:+ "'"))
           end
       | None => St.ret None
       end)%py
    (λ e, St.ret None).

(** [x or {}] *)
Definition or_empty (o : option (gmap string value)) : gmap string value :=
  match o with
  | Some d => if dict_truthy d then d else ∅
  | None => ∅
  end.

(** [update_context]: the mapping read is updated in place and stored
    again under the same key, so the aliasing between the mapping held
    by the store and [existing_context] leaves no trace once
    [store_context] has run. *)
Definition update_context (session_id : string) (update_data : gmap string value)
    (get_now get_refresh put_now put_sweep : Q) : M (ContextStore R) bool :=
  St.try_except
    (let! found := get_context session_id get_now get_refresh in
     let existing_context := update_data ∪ or_empty found in
     store_context session_id existing_context put_now put_sweep)%py
    (λ e, St.ret false).

Definition delete_context (session_id : string) : M (ContextStore R) bool :=
  St.try_except
    (let! cs := St.get_state in
     (if use_redis cs then
        on_redis (redis_delete ("context:" +:+ session_id))
      else
        St.modify (set_memory_store (delete session_id));;
        St.modify (set_memory_timestamps (delete session_id)));;
     St.ret true)%py
    (λ e, St.ret false).

(** The two assignments of the in-memory branch of [store_context]. *)
Definition stored sid ctx (now : Q) cs : ContextStore R :=
  set_memory_timestamps <[sid := now]> (set_memory_store <[sid := ctx]> cs).

(** Both dictionaries have the same keys. *)
Definition keys_agree cs : Prop := dom (memory_store cs) = dom (memory_timestamps cs).

(** Operations on a store, for statements about every sequence of calls. *)
Inductive StoreOp : Type :=
  | OpStore (sid : string) (ctx : gmap string value) (now sweep : Q)
  | OpGet (sid : string) (now refresh : Q)
  | OpUpdate (sid : string) (data : gmap string value) (t1 t2 t3 t4 : Q)
  | OpDelete (sid : string)
  | OpSweep (now : Q).

Definition run_op (op : StoreOp) cs : ContextStore R :=
  match op with
  | OpStore sid ctx now sweep => (store_context sid ctx now sweep cs).2
  | OpGet sid now refresh => (get_context sid now refresh cs).2
  | OpUpdate sid data t1 t2 t3 t4 => (update_context sid data t1 t2 t3 t4 cs).2
  | OpDelete sid => (delete_context sid cs).2
  | OpSweep now => _clean_expired_sessions now cs
  end.

Definition run_ops (ops : list StoreOp) cs : ContextStore R :=
  foldl (λ c op, run_op op c) cs ops.

(** Operations that neither write nor delete session [sid]. *)
Definition foreign sid (op : StoreOp) : Prop :=
  match op with
  | OpStore s _ _ _ | OpUpdate s _ _ _ _ _ | OpDelete s => s ≠ sid
  | OpGet _ _ _ | OpSweep _ => True
  end.

(** Operations that do not write session [sid]. *)
Definition no_put sid (op : StoreOp) : Prop :=
  match op with
  | OpStore s _ _ _ | OpUpdate s _ _ _ _ _ => s ≠ sid
  | OpGet _ _ _ | OpDelete _ | OpSweep _ => True
  end.

(** The clock readings an operation takes. *)
Definition readings (op : StoreOp) : list Q :=
  match op with
  | OpStore _ _ now sweep => [now; sweep]
  | OpGet _ now refresh => [now; refresh]
  | OpUpdate _ _ t1 t2 t3 t4 => [t1; t2; t3; t4]
  | OpDelete _ => []
  | OpSweep now => [now]
  end.

(** All of them lie between [lo] and [hi]. *)
Definition between (lo hi : Q) (op : StoreOp) : Prop :=
  Forall (λ r, (lo <= r)%Q ∧ (r <= hi)%Q) (readings op).

(** The readings an operation compares with the timestamp of session
    [sid]: the one of a read of [sid], and the one of a sweep. *)
Definition compared sid (op : StoreOp) : list Q :=
  match op with
  | OpGet s now _ => if decide (s = sid) then [now] else []
  | OpStore _ _ _ sweep | OpUpdate _ _ _ _ _ sweep => [sweep]
  | OpDelete _ => []
  | OpSweep now => [now]
  end.

(** The timestamp of session [sid] after an operation that finds it
    fresh: a read of [sid] moves it to the reading it writes back. *)
Definition touch sid (last : Q) (op : StoreOp) : Q :=
  match op with
  | OpGet s _ refresh => if decide (s = sid) then refresh else last
  | _ => last
  end.

(** No operation writes or deletes [sid], and every reading compared
    with its timestamp comes at most [ttl] after the last access. *)
Fixpoint kept_fresh (ttl : Z) sid (last : Q) (ops : list StoreOp) : Prop :=
  match ops with
  | [] => True
  | op :: rest =>
      foreign sid op
      ∧ Forall (λ r, (r - last <= inject_Z ttl)%Q) (compared sid op)
      ∧ kept_fresh ttl sid (touch sid last op) rest
  end.

(** Session [sid] is held in memory with mapping [ctx] and timestamp [last]. *)
Definition holds sid ctx (last : Q) cs : Prop :=
  use_redis cs = false
  ∧ memory_store cs !! sid = Some ctx
  ∧ memory_timestamps cs !! sid = Some last.

End ContextStore.

(** ** The orchestrator ([app/orchestrator/agent_orchestrator.py]) *)

Record AgentState : Type := mkAgentState {
  user_input : string;
  context : gmap string value;
  history : list (gmap string value);
  current_agent : option string;
  output : option (gmap string value);
  error : option string;
}.

(** [d.get(key, default)] *)
Definition dict_get (d : gmap string value) (key : string) (dflt : value) : value :=
  default dflt (d !! key).

(** What [dict.update(v)] merges: a mapping, or nothing for the empty
    string (an iterable without elements); any other value of this
    universe makes it raise. *)
Definition as_mapping (v : value) : option (gmap string value) :=
  match v with
  | VDict u => Some u
  | VStr "" => Some ∅
  | _ => None
  end.

Definition update_error (v : value) : exn :=
  match v with
  | VStr _ =>
      Exception "ValueError"
        "dictionary update sequence element #0 has length 1; 2 is required"
  | _ => Exception "TypeError" "object is not iterable"
  end.

(** [d.copy()] followed by [.update(v)]: keys of [v] win, the others
    keep the value they had. *)
Definition dict_update (d : gmap string value) (v : value) : result (gmap string value) :=
  match as_mapping v with
  | Some u => Return (u ∪ d)
  | None => Raise (update_error v)
  end.

(** [state.dict()] has one entry per declared field, set or not. *)
Definition dict_keys (state : AgentState) : list string :=
  ["user_input"; "context"; "history"; "current_agent"; "output"; "error"].

(** The [TypeError] of a call that is handed keyword [kw] twice. *)
Definition duplicate_keyword (kw : string) : exn :=
  Exception "TypeError"
    ("app.orchestrator.agent_orchestrator.AgentState() got multiple values for keyword argument '"
       +:+ kw +:+ "'").

(** [AgentState] called with the unpacked [state.dict()] and one more
    keyword [kw], as [_parse_intent] and the [except] branches of the
    runners call it.  A call that is handed one keyword twice, once
    from the unpacked mapping and once explicitly, raises [TypeError]
    before the callee runs; [built] is the object the call would have
    made otherwise. *)
Definition AgentState_from_dict_and (state : AgentState) (kw : string) (built : AgentState)
    : result AgentState :=
  if bool_decide (kw ∈ dict_keys state) then Raise (duplicate_keyword kw) else Return built.

Definition with_current_agent (a : option string) (state : AgentState) : AgentState :=
  mkAgentState (user_input state) (context state) (history state) a (output state) (error state).

Definition with_error (e : option string) (state : AgentState) : AgentState :=
  mkAgentState (user_input state) (context state) (history state) (current_agent state)
    (output state) e.

Definition with_context (c : gmap string value) (state : AgentState) : AgentState :=
  mkAgentState (user_input state) c (history state) (current_agent state)
    (output state) (error state).

(** A call that is handed [state.context]: what it does to the mapping
    is done to the state. *)
Definition on_context {A} (call : M (gmap string value) A) : M AgentState A :=
  λ state, let '(r, live) := call (context state) in (r, with_context live state).

(** [s.strip()] and [s.lower()] are methods of the language's strings,
    not code of the repository; the orchestrator and the agents are
    written against them. *)
Class StrMethods : Type := {
  strip : string → string;
  lower : string → string;
}.

(** The two methods on ASCII text, for the scenarios. *)
Definition is_space (c : ascii) : bool :=
  let n := nat_of_ascii c in
  ((9 <=? n)%nat && (n <=? 13)%nat) || ((28 <=? n)%nat && (n <=? 32)%nat).

Fixpoint lstrip (s : string) : string :=
  match s with
  | String c rest => if is_space c then lstrip rest else s
  | EmptyString => EmptyString
  end.

Definition ascii_strip (s : string) : string := String.rev (lstrip (String.rev (lstrip s))).

Definition lower_ascii (c : ascii) : ascii :=
  let n := nat_of_ascii c in
  if ((65 <=? n)%nat && (n <=? 90)%nat) then ascii_of_nat (n + 32) else c.

Fixpoint ascii_lower (s : string) : string :=
  match s with
  | String c rest => String (lower_ascii c) (ascii_lower rest)
  | EmptyString => EmptyString
  end.

(** A handler: [run(query, context)] returns a dictionary or raises.
    The runner passes it [state.context] itself, not a copy, so what the
    handler does to that mapping stays: a handler is a computation on
    the mapping it is given, which ends with a result or an exception
    and leaves the mapping in some state. *)
Definition Agent : Type := string → M (gmap string value) (gmap string value).

(** A handler that leaves the mapping it is given as it is. *)
Definition pure_agent (run : string → gmap string value → result (gmap string value)) : Agent :=
  λ query, (let! context := St.get_state in St.lift (run query context))%py.

(** The nodes of the graph, and [END]. *)
Inductive Node : Type :=
  | parse_intent | github_agent | proposal_validator | lead_generation | outreach | END.

#[global] Instance Node_eq_dec : EqDecision Node.
Proof. solve_decision. Defined.

(** A node maps the turn state to a new one, or raises. *)
Definition NodeFn : Type := AgentState → result AgentState.

(** Where a run of the graph stands. *)
Inductive Run : Type :=
  | Running (node : Node) (state : AgentState)
  | Finished (state : AgentState)
  | Crashed (e : exn).

(** What the graph library is handed by [_build_workflow] and keeps
    after [compile()]: the entry point, a function per node, and the
    edges as the successor of a node given the state it produced. *)
Record CompiledGraph : Type := mkCompiledGraph {
  entry_point : Node;
  action : Node → NodeFn;
  successor : Node → AgentState → Node;
}.

(** One node: run its function; an exception ends the run, [END] as
    successor ends it with the state reached. *)
Definition graph_step (g : CompiledGraph) (r : Run) : Run :=
  match r with
  | Running node state =>
      match action g node state with
      | Raise e => Crashed e
      | Return state' =>
          match successor g node state' with
          | END => Finished state'
          | node' => Running node' state'
          end
      end
  | _ => r
  end.

(** At most [fuel] nodes; [visited] lists the nodes run, in order. *)
Fixpoint graph_run (g : CompiledGraph) (fuel : nat) (r : Run) (visited : list Node)
    : Run * list Node :=
  match fuel, r with
  | S fuel', Running node _ => graph_run g fuel' (graph_step g r) (visited ++ [node])
  | _, _ => (r, visited)
  end.

(** [workflow.invoke(state)]: the final state, an exception, or no
    answer within [fuel] nodes. *)
Definition invoke (g : CompiledGraph) (fuel : nat) (state : AgentState)
    : option (result AgentState) * list Node :=
  let '(r, visited) := graph_run g fuel (Running (entry_point g) state) [] in
  (match r with
   | Finished final => Some (Return final)
   | Crashed e => Some (Raise e)
   | Running _ _ => None
   end, visited).

(** The dictionary [run_workflow] returns. *)
Module Response.
Record t : Type := mk {
  session_id : string;
  output : option value;
  error : option string;
  agent_used : option string;
}.
End Response.

(** Calls made on [self.context_store], as a call-recording double
    would list them. *)
Inductive StoreCall : Type :=
  | CallGet (session_id : string)
  | CallStore (session_id : string) (context : gmap string value).

(** The clock readings one [run_workflow] call consumes. *)
Record Clock : Type := mkClock {
  get_now : Q;
  get_refresh : Q;
  put_now : Q;
  put_sweep : Q;
}.

(** The orchestrator's mutable surroundings: its store, and two logs
    kept for the statements below (store calls made, graph nodes run). *)
Record World (R : Type) : Type := mkWorld {
  context_store : ContextStore R;
  store_calls : list StoreCall;
  nodes_run : list Node;
}.
Arguments mkWorld {R}.
Arguments context_store {R}.
Arguments store_calls {R}.
Arguments nodes_run {R}.

(** The function the test suite assigns to [_parse_intent] once the
    orchestrator is built ([tests/test_orchestrator.py]); the graph
    compiled by then keeps the method [_build_workflow] registered. *)
Definition mock_parse_intent : NodeFn :=
  λ state, Return (mkAgentState (user_input state) (context state) (history state)
                     (Some "github") None None).

(** What the orchestrator is built on: the chat-completion call, from
    the request text to the [content] of the first choice, and the four
    agent objects its constructor makes. *)
Record Collaborators : Type := mkCollaborators {
  classifier : string → result string;
  GithubAgent : Agent;
  ProposalValidatorAgent : Agent;
  LeadGenerationAgent : Agent;
  OutreachAgent : Agent;
}.

(** The registry key of a runner node. *)
Definition runner_name (node : Node) : option string :=
  match node with
  | github_agent => Some "github"
  | proposal_validator => Some "proposal_validator"
  | lead_generation => Some "lead_generation"
  | outreach => Some "outreach"
  | parse_intent | END => None
  end.

Definition runner_label (node : Node) : string :=
  match node with
  | github_agent => "GitHub agent error"
  | proposal_validator => "Proposal validator error"
  | lead_generation => "Lead generation error"
  | outreach => "Outreach agent error"
  | parse_intent | END => ""
  end.

Section Orchestrator.
Context {R : Type} {redis : RedisClient R} {json : JsonCodec} {text : StrMethods}.
Variable self : Collaborators.

(** [self.agents] *)
Definition agents : gmap string Agent :=
  {[ "github" := GithubAgent self;
     "proposal_validator" := ProposalValidatorAgent self;
     "lead_generation" := LeadGenerationAgent self;
     "outreach" := OutreachAgent self ]}.

Definition newline : string := String (ascii_of_nat 10) EmptyString.

Definition classify_request (text : string) : string :=
  "User request: " +:+ text +:+ newline +:+ newline
  +:+ "Classify this as one of: github, proposal_validator, lead_generation, outreach".

Definition _parse_intent (state : AgentState) : result AgentState :=
  Res.try_except
    (let? content := classifier self (classify_request (user_input state)) in
     let agent_name := lower (strip content) in
     let agent_name :=
       if bool_decide (is_Some (agents !! agent_name)) then Some agent_name else None in
     AgentState_from_dict_and state "current_agent" (with_current_agent agent_name state))
    (λ e, AgentState_from_dict_and state "error"
            (with_error (Some ("Error parsing intent: " +:+ str e)) state)).

Definition _should_route_to_github (state : AgentState) : bool :=
  bool_decide (current_agent state = Some "github").
Definition _should_route_to_validator (state : AgentState) : bool :=
  bool_decide (current_agent state = Some "proposal_validator").
Definition _should_route_to_lead_gen (state : AgentState) : bool :=
  bool_decide (current_agent state = Some "lead_generation").
Definition _should_route_to_outreach (state : AgentState) : bool :=
  bool_decide (current_agent state = Some "outreach").

(** The entry a runner appends to the history. *)
Definition history_entry (name : string) (state : AgentState) (agent_result : gmap string value)
    : gmap string value :=
  {[ "agent" := VStr name;
     "input" := VStr (user_input state);
     "output" := dict_get agent_result "response" (VStr "") ]}.

(** [d[key]] *)
Definition dict_getitem {A} (d : gmap string A) (key : string) : result A :=
  match d !! key with
  | Some a => Return a
  | None => Raise (Exception "KeyError" ("'" +:+ key +:+ "'"))
  end.

(** The four runners are the same text up to the registry key and the
    label of the error message.  The handler is called on
    [state.context]; the copy that is updated with the handler's
    fragment is taken after the call, from the mapping as the handler
    left it, and the [except] branch unpacks the state as it then is. *)
Definition run_agent (name label : string) (state : AgentState) : result AgentState :=
  fst (St.try_except
         (let! agent := St.lift (dict_getitem agents name) in
          let! agent_result := on_context (agent (user_input state)) in
          let! state := St.get_state in
          let! updated_context :=
            St.lift (dict_update (context state) (dict_get agent_result "context" (VDict ∅))) in
          let history := history state ++ [history_entry name state agent_result] in
          St.ret (mkAgentState (user_input state) updated_context history
                    (Some name) (Some agent_result) None))%py
         (λ e, let! state := St.get_state in
               St.lift (AgentState_from_dict_and state "error"
                          (with_error (Some (label +:+ ": " +:+ str e)) state)))%py
         state).

Definition _run_github_agent : NodeFn := run_agent "github" "GitHub agent error".
Definition _run_proposal_validator : NodeFn :=
  run_agent "proposal_validator" "Proposal validator error".
Definition _run_lead_generation : NodeFn := run_agent "lead_generation" "Lead generation error".
Definition _run_outreach : NodeFn := run_agent "outreach" "Outreach agent error".

Definition _check_completion (state : AgentState) : bool :=
  if match error state with Some msg => str_truthy msg | None => false end then true
  else
    match output state with
    | Some out =>
        if dict_truthy out && truthy (dict_get out "complete" (VBool false)) then true
        else false
    | None => false
    end.

(** [_build_workflow].  The router node is a parameter; the
    orchestrator registers [_parse_intent] ([run_workflow] below).
    After the router the first edge whose condition holds is taken, and
    the run ends when none does; after a runner, [_check_completion]
    chooses between [END] and the router. *)
Definition _build_workflow (router : NodeFn) : CompiledGraph :=
  mkCompiledGraph parse_intent
    (λ node,
       match node with
       | parse_intent => router
       | github_agent => _run_github_agent
       | proposal_validator => _run_proposal_validator
       | lead_generation => _run_lead_generation
       | outreach => _run_outreach
       | END => Return
       end)
    (λ node state,
       match node with
       | parse_intent =>
           if _should_route_to_github state then github_agent
           else if _should_route_to_validator state then proposal_validator
           else if _should_route_to_lead_gen state then lead_generation
           else if _should_route_to_outreach state then outreach
           else END
       | END => END
       | _ => if _check_completion state then END else parse_intent
       end).

Definition on_store {A} (call : StoreCall) (m : M (ContextStore R) A) : M (World R) A :=
  λ w, let '(r, cs) := m (context_store w) in
       (r, mkWorld cs (store_calls w ++ [call]) (nodes_run w)).

Definition record_nodes (visited : list Node) (w : World R) : World R :=
  mkWorld (context_store w) (store_calls w) (nodes_run w ++ visited).

(** [if not session_id: session_id = str(uuid.uuid4())] *)
Definition given_or_generated (session_id : option string) (uuid4 : string) : string :=
  match session_id with
  | Some s => if str_truthy s then s else uuid4
  | None => uuid4
  end.

(** [final_state.output.get("response", "") if final_state.output else None] *)
Definition response_text (out : option (gmap string value)) : option value :=
  match out with
  | Some d => if dict_truthy d then Some (dict_get d "response" (VStr "")) else None
  | None => None
  end.

(** [AgentState(user_input=user_input, context=context, history=[])] *)
Definition initial_state (request : string) (loaded : gmap string value) : AgentState :=
  mkAgentState request loaded [] None None None.

(** [run_workflow], for a given router node.  [None]: the graph gave no
    answer within [fuel] nodes.  The load of the context and the
    construction of the initial state come before the [try]. *)
Definition run_workflow_on (router : NodeFn) (fuel : nat) (request : string)
    (session_id : option string) (uuid4 : string) (clock : Clock) (w : World R)
    : option (result Response.t * World R) :=
  let session_id := given_or_generated session_id uuid4 in
  match on_store (CallGet session_id)
          (get_context session_id (get_now clock) (get_refresh clock)) w with
  | (Raise e, w1) => Some (Raise e, w1)
  | (Return found, w1) =>
      let '(outcome, visited) :=
        invoke (_build_workflow router) fuel (initial_state request (or_empty found)) in
      match outcome with
      | None => None
      | Some outcome =>
          Some (St.try_except
                  (let! final_state := St.lift outcome in
                   (if dict_truthy (context final_state)
                    then on_store (CallStore session_id (context final_state))
                           (store_context session_id (context final_state)
                              (put_now clock) (put_sweep clock))
                    else St.ret true);;
                   St.ret (Response.mk session_id (response_text (output final_state))
                             (error final_state) (current_agent final_state)))%py
                  (λ e, St.ret (Response.mk session_id None
                                  (Some ("Workflow error: " +:+ str e)) None))
                  (record_nodes visited w1))
      end
  end.

(** [AgentOrchestrator.run_workflow] *)
Definition run_workflow : nat → string → option string → string → Clock → World R
    → option (result Response.t * World R) :=
  run_workflow_on _parse_intent.

(** The context a call starts from: what the store returns, or the
    empty mapping. *)
Definition loaded_context (sid : string) (clock : Clock) (w : World R) : gmap string value :=
  match (get_context sid (get_now clock) (get_refresh clock) (context_store w)).1 with
  | Return found => or_empty found
  | Raise _ => ∅
  end.

(** The store calls that follow the load, given how the graph ended. *)
Definition puts_of (sid : string) (outcome : result AgentState) : list StoreCall :=
  match outcome with
  | Return final =>
      if dict_truthy (context final) then [CallStore sid (context final)] else []
  | Raise _ => []
  end.

(** The dictionary returned, given how the graph ended. *)
Definition response_of (sid : string) (outcome : result AgentState) : Response.t :=
  match outcome with
  | Return final =>
      Response.mk sid (response_text (output final)) (error final) (current_agent final)
  | Raise e => Response.mk sid None (Some ("Workflow error: " +:+ str e)) None
  end.

Definition store_after (sid : string) (clock : Clock) (outcome : result AgentState)
    (cs : ContextStore R) : ContextStore R :=
  match outcome with
  | Return final =>
      if dict_truthy (context final)
      then (store_context sid (context final) (put_now clock) (put_sweep clock) cs).2
      else cs
  | Raise _ => cs
  end.

End Orchestrator.

(** ** Scenarios *)

(** A Redis client that cannot connect and a codec that rejects
    everything: the in-memory store never calls either. *)
Definition offline : exn := Exception "ConnectionError" "Error connecting to localhost:6379".

#[global] Instance no_redis : RedisClient unit := {|
  redis_setex _ _ _ := St.raise offline;
  redis_get _ := St.raise offline;
  redis_expire _ _ := St.raise offline;
  redis_delete _ := St.raise offline;
|}.

#[global] Instance no_json : JsonCodec := {|
  json_dumps _ := Raise (Exception "TypeError" "Object is not JSON serializable");
  json_loads _ := Raise (Exception "JSONDecodeError" "Expecting value");
|}.

(** The store of a fresh process with the default settings. *)
Definition fresh_store : ContextStore unit := __init__ false 3600 tt.
Definition fresh_world : World unit := mkWorld fresh_store [] [].

(** The store of the test suite's fixture: one session holding
    [{"test_key": "test_value"}], written at time 0. *)
Definition test_context : gmap string value := {[ "test_key" := VStr "test_value" ]}.
Definition test_store : ContextStore unit :=
  (store_context "test_session" test_context 0 0 fresh_store).2.
Definition test_world : World unit := mkWorld test_store [] [].

Definition noon : Clock := mkClock 10 10 11 11.

(** Operations on other sessions, and a read of the session itself,
    between a put at time 0 and a read at 0.9 TTL. *)
Definition busy_hour : list StoreOp :=
  [OpGet "s1" 100 100; OpStore "s2" ∅ 200 200; OpDelete "s2";
   OpUpdate "s3" test_context 300 300 300 300; OpSweep 400].

(** Handlers. *)
Definition idle_agent : Agent := pure_agent (λ _ _, Return ∅).

Definition issues_agent : Agent := pure_agent (λ _ _,
  Return {[ "response" := VStr "3 open issues";
            "context" := VDict {[ "github" := VDict {[ "open_issues" := VInt 3 ]} ]};
            "complete" := VBool true ]}).


(** A handler that takes [notes] out of the mapping it is given and
    returns no context fragment. *)
Definition forgetful_agent : Agent := λ _,
  (St.modify (delete "notes");;
   St.ret {[ "response" := VStr "done"; "complete" := VBool true ]})%py.

(** Orchestrators. *)
Definition issues_orchestrator : Collaborators :=
  mkCollaborators (λ _, Return "github") issues_agent idle_agent idle_agent idle_agent.



Definition overwriting_orchestrator : Collaborators :=
  mkCollaborators (λ _, Return "github") issues_agent idle_agent idle_agent idle_agent.

Definition forgetful_orchestrator : Collaborators :=
  mkCollaborators (λ _, Return "github") forgetful_agent idle_agent idle_agent idle_agent.

(** A turn state whose [github] namespace holds two keys, and the state
    the GitHub runner makes of it with [issues_agent]. *)
Definition nested_state : AgentState :=
  mkAgentState "list open issues for owner/repo"
    {[ "github" := VDict {[ "open_issues" := VInt 5; "repo" := VStr "owner/repo" ]};
       "notes" := VStr "keep" ]}
    [] (Some "github") None None.

Definition overwritten_state : AgentState :=
  mkAgentState "list open issues for owner/repo"
    {[ "github" := VDict {[ "open_issues" := VInt 3 ]}; "notes" := VStr "keep" ]}
    [ {[ "agent" := VStr "github";
         "input" := VStr "list open issues for owner/repo";
         "output" := VStr "3 open issues" ]} ]
    (Some "github")
    (Some {[ "response" := VStr "3 open issues";
             "context" := VDict {[ "github" := VDict {[ "open_issues" := VInt 3 ]} ]};
             "complete" := VBool true ]})
    None.


(** The methods of strings the scenarios run with. *)
#[global] Instance ascii_text : StrMethods := {|
  strip := ascii_strip;
  lower := ascii_lower;
|}.



(** ** Attribute and item access on values *)

(** [type(v).__name__] *)
Definition type_name (v : value) : string :=
  match v with
  | VNone => "NoneType"
  | VBool _ => "bool"
  | VInt _ => "int"
  | VStr _ => "str"
  | VDict _ => "dict"
  end.

Definition no_attribute (v : value) (attr : string) : exn :=
  Exception "AttributeError"
    ("'" +:+ type_name v +:+ "' object has no attribute '" +:+ attr +:+ "'").

(** [v.get(key)]: of the values of this universe only a mapping has
    the method. *)
Definition value_get (v : value) (key : string) : result value :=
  match v with
  | VDict d => Return (dict_get d key VNone)
  | _ => Raise (no_attribute v "get")
  end.

(** [v[key]] with a string as key. *)
Definition value_getitem (v : value) (key : string) : result value :=
  match v with
  | VDict d => dict_getitem d key
  | VStr _ => Raise (Exception "TypeError" "string indices must be integers")
  | _ => Raise (Exception "TypeError" ("'" +:+ type_name v +:+ "' object is not subscriptable"))
  end.

(** [v[key] = item] with a string as key. *)
Definition value_setitem (v : value) (key : string) (item : value) : result value :=
  match v with
  | VDict d => Return (VDict (<[key := item]> d))
  | _ =>
      Raise (Exception "TypeError"
               ("'" +:+ type_name v +:+ "' object does not support item assignment"))
  end.

(** ** The GitHub agent ([app/agents/github_agent.py]) *)

Module Github.

(** What the agent is built on.  [chat] is the chat-completion call,
    from the system and the user message to the [content] of the first
    choice, which is text whatever response format is asked for.  The
    client's lookup may raise.  The five operations and the wording of
    the answer catch every exception themselves and so always return;
    they are taken as given. *)
Record Surroundings : Type := mkSurroundings {
  chat : string → string → result string;
  get_repository_data : value → value → result value;
  _read_repository : value → string → value;
  _create_pull_request : value → string → value;
  _review_pull_request : value → string → value;
  _manage_issue : value → string → value;
  _create_commit : value → string → value;
  _generate_response : string → string → value → string;
}.

(** The repository information [_extract_repo_info] falls back to. *)
Definition empty_info : value := VDict {[ "owner" := VStr ""; "repo_name" := VStr "" ]}.

Section Agent.
Context {text : StrMethods}.
Variable env : Surroundings.

Definition extraction_request (query : string) : string :=
  "Extract the GitHub repository owner and name from this text: '" +:+ query
  +:+ "'. Return JSON format with 'owner' and 'repo_name' fields. If not found, return empty strings.".

Definition classification_request (query : string) : string :=
  "Classify this query into one of these GitHub operations: 'read_repo', 'create_pr', 'review_pr', 'manage_issue', 'create_commit'. Query: '"
  +:+ query +:+ "'".

(** The test on the context comes before the [try]; the value returned
    from the [try] is the text of the model's answer as it is. *)
Definition _extract_repo_info (query : string) (context : gmap string value) : result value :=
  let? last_repo := value_get (dict_get context "github" (VDict ∅)) "last_repo" in
  if truthy last_repo then
    let? github := dict_getitem context "github" in
    value_getitem github "last_repo"
  else
    Res.try_except
      (let? content :=
         chat env "Extract GitHub repository information from the text."
           (extraction_request query) in
       Return (VStr content))
      (λ _, Return empty_info).

Definition _determine_operation (query : string) : result string :=
  Res.try_except
    (let? content :=
       chat env "Classify GitHub operations based on user query."
         (classification_request query) in
     Return (lower (strip content)))
    (λ _, Return "read_repo").

Definition _perform_operation (operation query : string) (repo_info repo_data : value) : value :=
  if bool_decide (operation = "read_repo") then _read_repository env repo_info query
  else if bool_decide (operation = "create_pr") then _create_pull_request env repo_info query
  else if bool_decide (operation = "review_pr") then _review_pull_request env repo_info query
  else if bool_decide (operation = "manage_issue") then _manage_issue env repo_info query
  else if bool_decide (operation = "create_commit") then _create_commit env repo_info query
  else VDict {[ "error" := VStr "Unsupported operation" ]}.

(** The repository data [run] fetches when both names are set. *)
Definition fetch_repository_data (repo_info : value) : result value :=
  let? repo_name := value_get repo_info "repo_name" in
  if truthy repo_name then
    let? owner := value_get repo_info "owner" in
    if truthy owner then
      let? owner := value_getitem repo_info "owner" in
      let? repo := value_getitem repo_info "repo_name" in
      get_repository_data env owner repo
    else Return (VDict ∅)
  else Return (VDict ∅).

(** The [github] entry [run] writes into the context. *)
Definition namespace (repo_info : value) (operation : string) (result : value) : value :=
  VDict {[ "last_repo" := repo_info;
           "last_operation" := VStr operation;
           "last_result" := result ]}.

(** [GithubAgent.run]; nothing in it catches an exception, and it
    changes the mapping it is given nowhere: the context it returns is
    a copy. *)
Definition run (query : string) (context : gmap string value) : result (gmap string value) :=
  let context := or_empty (Some context) in
  let? repo_info := _extract_repo_info query context in
  let? repo_data := fetch_repository_data repo_info in
  let? operation := _determine_operation query in
  let result := _perform_operation operation query repo_info repo_data in
  let updated_context := {[ "github" := namespace repo_info operation result ]} ∪ context in
  let response := _generate_response env query operation result in
  Return {[ "response" := VStr response;
            "context" := VDict updated_context;
            "complete" := VBool true ]}.

End Agent.
End Github.

(** ** The outreach agent ([app/agents/outreach.py]) *)

Module Outreach.

(** [chat] as for the GitHub agent; [py_str] is [str(v)], the text
    Python prints for a value. *)
Record Surroundings : Type := mkSurroundings {
  chat : string → string → result string;
  py_str : value → string;
}.

(** The parameters [_extract_outreach_parameters] falls back to. *)
Definition basic_parameters : value :=
  VDict {[ "recipient_name" := VStr "there";
           "recipient_background" := VStr "your background in technology";
           "project_name" := VStr "our project";
           "outreach_purpose" := VStr "discuss collaboration";
           "specific_details" := VStr "the details you mentioned";
           "sender_name" := VStr "The Project Team" ]}.

Section Agent.
Context {text : StrMethods}.
Variable env : Surroundings.

(** [context[key]] if [context.get(key)] is truthy, the empty mapping
    otherwise. *)
Definition namespace_or_empty (context : gmap string value) (key : string) : value :=
  if truthy (dict_get context key VNone) then dict_get context key VNone else VDict ∅.

Definition context_str (lead_context github_context : value) : string :=
  "Lead Generation Context: " +:+ String.substring 0 500 (py_str env lead_context)
  +:+ "..." +:+ newline
  +:+ "GitHub Context: " +:+ String.substring 0 500 (py_str env github_context) +:+ "...".

Definition extraction_request (query : string) (lead_context github_context : value) : string :=
  "Query: " +:+ query +:+ newline +:+ newline
  +:+ "Context: " +:+ context_str lead_context github_context +:+ newline +:+ newline
  +:+ "Extract the following parameters for creating an outreach message:" +:+ newline
  +:+ "- recipient_name" +:+ newline
  +:+ "- recipient_background (skills, contributions)" +:+ newline
  +:+ "- project_name" +:+ newline
  +:+ "- outreach_purpose" +:+ newline
  +:+ "- specific_details" +:+ newline
  +:+ "- sender_name".

(** [if not params.get(key): params[key] = dflt] *)
Definition ensure (key : string) (dflt : value) (params : value) : result value :=
  let? found := value_get params key in
  if truthy found then Return params else value_setitem params key dflt.

Definition _extract_outreach_parameters (query : string) (context : gmap string value)
    : result value :=
  let lead_context := namespace_or_empty context "lead_generation" in
  let github_context := namespace_or_empty context "github" in
  Res.try_except
    (let? content :=
       chat env
         "Extract parameters for an outreach message (email, issue reply, etc) from the query and context."
         (extraction_request query lead_context github_context) in
     let params := VStr content in
     let? params := ensure "recipient_name" (VStr "there") params in
     let? params := ensure "project_name" (VStr "our project") params in
     let? params := ensure "sender_name" (VStr "The Project Team") params in
     Return params)
    (λ _, Return basic_parameters).

Definition type_request (query : string) : string :=
  "Based on this query: '" +:+ query
  +:+ "', what type of outreach content is needed? Options are: 'email', 'issue_reply', 'pr_comment', 'general_outreach'. Return just one option.".

Definition type_mapping : gmap string string :=
  {[ "email" := "contributor_invitation";
     "issue_reply" := "issue_response";
     "pr_comment" := "pr_review";
     "general_outreach" := "contributor_invitation" ]}.

Definition _determine_outreach_type (query : string) (params : value) : result string :=
  Res.try_except
    (let? content := chat env "Determine the type of outreach content needed." (type_request query) in
     let outreach_type := lower (strip content) in
     Return (default "contributor_invitation" (type_mapping !! outreach_type)))
    (λ _, Return "contributor_invitation").

End Agent.
End Outreach.

(** ** The HTTP entry point ([app/api/router.py]) *)

Module AgentRequest.
Record t : Type := mk {
  query : string;
  session_id : option string;
}.
End AgentRequest.

Module AgentResponse.
Record t : Type := mk {
  session_id : string;
  agent_used : option string;
  output : option string;
  error : option string;
}.
End AgentResponse.

(** What the endpoint sends: the response model, or the error an
    [HTTPException] becomes. *)
Inductive HttpResult : Type :=
  | Ok (response : AgentResponse.t)
  | HTTPError (status_code : Z) (detail : string).

Module Api.
Section Api.
Context {R : Type} {redis : RedisClient R} {json : JsonCodec} {text : StrMethods}.

(** The module's [orchestrator]. *)
Variable orchestrator : Collaborators.

(** What the response model makes of a value that is no string where
    a string is declared: a validation error, or the string it is
    converted to; this depends on the release of the validation
    library. *)
Variable coerce_str : value → result string.

(** A field declared [Optional[str]]. *)
Definition optional_str (v : option value) : result (option string) :=
  match v with
  | None | Some VNone => Return None
  | Some (VStr s) => Return (Some s)
  | Some v => let? s := coerce_str v in Return (Some s)
  end.

(** [run_agent]; [uuid4] is the identifier the endpoint would
    generate, [uuid4'] the one the orchestrator would. *)
Definition run_agent (request : AgentRequest.t) (uuid4 uuid4' : string) (fuel : nat)
    (clock : Clock) (w : World R) : option (HttpResult * World R) :=
  let session_id := given_or_generated (AgentRequest.session_id request) uuid4 in
  match run_workflow orchestrator fuel (AgentRequest.query request) (Some session_id)
          uuid4' clock w with
  | None => None
  | Some (Raise e, w') => Some (HTTPError 500 ("Error running agent: " +:+ str e), w')
  | Some (Return result, w') =>
      Some (match
              (let? output := optional_str (Response.output result) in
               Return (AgentResponse.mk session_id (Response.agent_used result) output
                         (Response.error result)))
            with
            | Return response => Ok response
            | Raise e => HTTPError 500 ("Error running agent: " +:+ str e)
            end, w')
  end.

End Api.
End Api.

(** ** More scenarios *)

(** A store on Redis whose server cannot be reached. *)
Definition unreachable_store : ContextStore unit := __init__ true 3600 tt.

(** A handler that raises. *)
Definition failing_agent : Agent := λ _, St.raise (Exception "RuntimeError" "rate limit exceeded").
Definition failing_orchestrator : Collaborators :=
  mkCollaborators (λ _, Return "github") failing_agent idle_agent idle_agent idle_agent.

(** The GitHub agent with a model that cannot be reached, and with one
    that answers every request with the same text. *)
Definition no_operation : value → string → value :=
  λ _ _, VDict {[ "error" := VStr "Repository information is incomplete" ]}.

Definition unreachable_model : Github.Surroundings :=
  Github.mkSurroundings (λ _ _, Raise offline) (λ _ _, Raise offline)
    no_operation no_operation no_operation no_operation no_operation
    (λ _ _ _, "I performed the GitHub operation").

Definition answering_model : Github.Surroundings :=
  Github.mkSurroundings (λ _ _, Return "{'owner': 'octocat', 'repo_name': 'hello-world'}")
    (λ _ _, Raise offline)
    no_operation no_operation no_operation no_operation no_operation
    (λ _ _ _, "I performed the GitHub operation").

Definition github_orchestrator (env : Github.Surroundings) : Collaborators :=
  mkCollaborators (λ _, Return "github") (pure_agent (Github.run env))
    idle_agent idle_agent idle_agent.

(** What the GitHub agent returns for a first request when the model
    cannot be reached. *)
Definition first_answer : gmap string value :=
  {[ "response" := VStr "I performed the GitHub operation";
     "context" :=
       VDict {[ "github" :=
                  Github.namespace Github.empty_info "read_repo"
                    (VDict {[ "error" := VStr "Repository information is incomplete" ]}) ]};
     "complete" := VBool true ]}.

(** * Properties of the context store *)

(** Run a computation of the state-and-exception monad. *)
Ltac run_st :=
  unfold St.try_except, St.bind, St.get_state, St.modify, St.ret, St.raise, St.lift.

Create HintDb store_inv.

Section ContextStoreFacts.
Context {R : Type} {redis : RedisClient R} {json : JsonCodec}.
Implicit Types (cs : ContextStore R) (sid : string) (ctx : gmap string value).

Lemma drop_sessions_store (l : list string) cs k :
  memory_store (foldl (λ c s, drop_session s c) cs l) !! k
  = if decide (k ∈ l) then None else memory_store cs !! k.
Proof.
  revert cs. induction l as [|s l IH]; intros cs.
  - rewrite decide_False; [done | apply not_elem_of_nil].
  - cbn [foldl]. rewrite IH. destruct (decide (k = s)) as [->|Hne].
    + rewrite (decide_True (P := s ∈ s :: l)); [|by left].
      case_decide; [done|]. apply lookup_delete_eq.
    + cbn. rewrite lookup_delete_ne; [|done].
      apply decide_ext. rewrite elem_of_cons. split; [by right | by intros [?|?]].
Qed.

Lemma drop_sessions_timestamps (l : list string) cs k :
  memory_timestamps (foldl (λ c s, drop_session s c) cs l) !! k
  = if decide (k ∈ l) then None else memory_timestamps cs !! k.
Proof.
  revert cs. induction l as [|s l IH]; intros cs.
  - rewrite decide_False; [done | apply not_elem_of_nil].
  - cbn [foldl]. rewrite IH. destruct (decide (k = s)) as [->|Hne].
    + rewrite (decide_True (P := s ∈ s :: l)); [|by left].
      case_decide; [done|]. apply lookup_delete_eq.
    + cbn. rewrite lookup_delete_ne; [|done].
      apply decide_ext. rewrite elem_of_cons. split; [by right | by intros [?|?]].
Qed.

Lemma drop_sessions_config (l : list string) cs :
  use_redis (foldl (λ c s, drop_session s c) cs l) = use_redis cs
  ∧ context_ttl (foldl (λ c s, drop_session s c) cs l) = context_ttl cs
  ∧ redis_client (foldl (λ c s, drop_session s c) cs l) = redis_client cs.
Proof.
  revert cs. induction l as [|s l IH]; intros cs; simpl; [done|].
  destruct (IH (drop_session s cs)) as (-> & -> & ->). done.
Qed.

Lemma elem_of_expired_sessions ttl now (ts : gmap string Q) k :
  k ∈ expired_sessions ttl now ts
  ↔ ∃ t, ts !! k = Some t ∧ Qgtb (now - t) (inject_Z ttl) = true.
Proof.
  unfold expired_sessions. rewrite list_elem_of_fmap. split.
  - intros [[k' t] [-> Hin]]. apply list_elem_of_filter in Hin as [Hexp Hin].
    apply elem_of_map_to_list in Hin. by exists t.
  - intros (t & Hk & Hexp). exists (k, t). split; [done|].
    apply list_elem_of_filter. split; [done|]. by apply elem_of_map_to_list.
Qed.

(** What the sweep leaves of a session: nothing when its timestamp is
    older than the TTL, everything otherwise. *)
Lemma clean_expired_store now cs k :
  use_redis cs = false →
  memory_store (_clean_expired_sessions now cs) !! k
  = match memory_timestamps cs !! k with
    | Some t => if Qgtb (now - t) (inject_Z (context_ttl cs)) then None else memory_store cs !! k
    | None => memory_store cs !! k
    end.
Proof.
  intros Hmem. unfold _clean_expired_sessions. rewrite Hmem, drop_sessions_store.
  destruct (memory_timestamps cs !! k) as [t|] eqn:Ht.
  - destruct (Qgtb (now - t) (inject_Z (context_ttl cs))) eqn:Hexp.
    + rewrite decide_True; [done|]. apply elem_of_expired_sessions. eauto.
    + rewrite decide_False; [done|]. rewrite elem_of_expired_sessions.
      intros (t' & Ht' & Hexp'). congruence.
  - rewrite decide_False; [done|]. rewrite elem_of_expired_sessions.
    intros (t' & Ht' & _). congruence.
Qed.

Lemma clean_expired_timestamps now cs k :
  use_redis cs = false →
  memory_timestamps (_clean_expired_sessions now cs) !! k
  = match memory_timestamps cs !! k with
    | Some t => if Qgtb (now - t) (inject_Z (context_ttl cs)) then None else Some t
    | None => None
    end.
Proof.
  intros Hmem. unfold _clean_expired_sessions. rewrite Hmem, drop_sessions_timestamps.
  destruct (memory_timestamps cs !! k) as [t|] eqn:Ht.
  - destruct (Qgtb (now - t) (inject_Z (context_ttl cs))) eqn:Hexp.
    + rewrite decide_True; [done|]. apply elem_of_expired_sessions. eauto.
    + rewrite decide_False; [done|]. rewrite elem_of_expired_sessions.
      intros (t' & Ht' & Hexp'). congruence.
  - rewrite decide_False; [done|]. rewrite elem_of_expired_sessions.
    intros (t' & Ht' & _). congruence.
Qed.

Lemma clean_expired_config now cs :
  use_redis (_clean_expired_sessions now cs) = use_redis cs
  ∧ context_ttl (_clean_expired_sessions now cs) = context_ttl cs
  ∧ redis_client (_clean_expired_sessions now cs) = redis_client cs.
Proof.
  unfold _clean_expired_sessions. destruct (use_redis cs) eqn:E; [done|].
  rewrite <- E. apply drop_sessions_config.
Qed.

(** The in-memory branches, with the monad unfolded. *)
Lemma store_context_memory sid ctx now sweep cs :
  use_redis cs = false →
  store_context sid ctx now sweep cs
  = (Return true,
     if (Z.of_nat (size (memory_store (stored sid ctx now cs))) mod 10 =? 0)%Z
     then _clean_expired_sessions sweep (stored sid ctx now cs)
     else stored sid ctx now cs).
Proof.
  intros Hmem. unfold store_context. run_st.
  rewrite Hmem. cbn. fold (stored sid ctx now cs).
  by destruct (_ =? _)%Z.
Qed.

Lemma get_context_memory sid now refresh cs :
  use_redis cs = false →
  get_context sid now refresh cs
  = match memory_store cs !! sid, memory_timestamps cs !! sid with
    | Some ctx, Some t =>
        if Qle_bool (now - t) (inject_Z (context_ttl cs))
        then (Return (Some ctx), set_memory_timestamps <[sid := refresh]> cs)
        else (Return None, drop_session sid cs)
    | _, _ => (Return None, cs)
    end.
Proof.
  intros Hmem. unfold get_context. run_st.
  rewrite Hmem. destruct (memory_store cs !! sid) as [c|]; [|done].
  destruct (memory_timestamps cs !! sid) as [t|]; [|done].
  by destruct (Qle_bool _ _).
Qed.

Lemma delete_context_memory sid cs :
  use_redis cs = false →
  delete_context sid cs = (Return true, drop_session sid cs).
Proof.
  intros Hmem. unfold delete_context. run_st.
  by rewrite Hmem.
Qed.

(** *** C10: the two dictionaries always have the same keys *)

Lemma keys_agree_stored sid ctx now cs : keys_agree cs → keys_agree (stored sid ctx now cs).
Proof. unfold keys_agree. cbn. rewrite !dom_insert_L. by intros ->. Qed.

Lemma keys_agree_drop sid cs : keys_agree cs → keys_agree (drop_session sid cs).
Proof. unfold keys_agree. cbn. rewrite !dom_delete_L. by intros ->. Qed.

Lemma keys_agree_drop_sessions (l : list string) cs :
  keys_agree cs → keys_agree (foldl (λ c s, drop_session s c) cs l).
Proof.
  revert cs. induction l as [|s l IH]; intros cs Hcs; [done|].
  cbn [foldl]. by apply IH, keys_agree_drop.
Qed.

Lemma keys_agree_clean now cs : keys_agree cs → keys_agree (_clean_expired_sessions now cs).
Proof.
  intros Hcs. unfold _clean_expired_sessions. destruct (use_redis cs); [done|].
  by apply keys_agree_drop_sessions.
Qed.

Lemma keys_agree_refresh sid now cs :
  is_Some (memory_store cs !! sid) → is_Some (memory_timestamps cs !! sid) →
  keys_agree cs → keys_agree (set_memory_timestamps <[sid := now]> cs).
Proof.
  unfold keys_agree. cbn. intros Hs Ht Hcs. rewrite dom_insert_L, <- Hcs.
  apply elem_of_dom in Hs. symmetry. apply subseteq_union_1_L.
  by apply singleton_subseteq_l.
Qed.

(** A call on the Redis client leaves both dictionaries alone. *)
Lemma on_redis_memory {A} (call : M R A) cs :
  memory_store (on_redis call cs).2 = memory_store cs
  ∧ memory_timestamps (on_redis call cs).2 = memory_timestamps cs.
Proof. unfold on_redis. by destruct (call (redis_client cs)). Qed.

Lemma on_redis_keys_agree {A} (call : M R A) cs :
  keys_agree cs → keys_agree (on_redis call cs).2.
Proof. unfold keys_agree. by destruct (on_redis_memory call cs) as [-> ->]. Qed.

Lemma keys_agree_store_context sid ctx now sweep cs :
  keys_agree cs → keys_agree (store_context sid ctx now sweep cs).2.
Proof.
  intros Hcs. destruct (use_redis cs) eqn:Hmode.
  - unfold store_context. run_st.
    rewrite Hmode. destruct (json_dumps ctx) as [payload|e]; [|done].
    pose proof (on_redis_keys_agree
      (redis_setex ("context:" ++ sid) (context_ttl cs) payload) cs Hcs) as Hk.
    by destruct (on_redis _ cs) as [[[]|e] cs'].
  - rewrite store_context_memory by done. cbn [snd].
    destruct (_ =? _)%Z; [apply keys_agree_clean|]; by apply keys_agree_stored.
Qed.

Lemma keys_agree_get_context sid now refresh cs :
  keys_agree cs → keys_agree (get_context sid now refresh cs).2.
Proof.
  intros Hcs. destruct (use_redis cs) eqn:Hmode.
  - unfold get_context. run_st.
    rewrite Hmode.
    pose proof (on_redis_keys_agree (redis_get ("context:" ++ sid)) cs Hcs) as Hk.
    destruct (on_redis (redis_get _) cs) as [[[bytes|]|e] cs1]; try done.
    destruct (str_truthy bytes); [|done].
    pose proof (on_redis_keys_agree
      (redis_expire ("context:" ++ sid) (context_ttl cs)) cs1 Hk) as Hk'.
    destruct (on_redis (redis_expire _ _) cs1) as [[[]|e] cs2]; [|done].
    by destruct (json_loads bytes).
  - rewrite get_context_memory by done.
    destruct (memory_store cs !! sid) as [c|] eqn:Hs; [|done].
    destruct (memory_timestamps cs !! sid) as [t|] eqn:Ht; [|done].
    destruct (Qle_bool _ _); cbn [snd].
    + apply keys_agree_refresh; eauto.
    + by apply keys_agree_drop.
Qed.

Lemma keys_agree_delete_context sid cs :
  keys_agree cs → keys_agree (delete_context sid cs).2.
Proof.
  intros Hcs. destruct (use_redis cs) eqn:Hmode.
  - unfold delete_context. run_st.
    rewrite Hmode.
    pose proof (on_redis_keys_agree (redis_delete ("context:" ++ sid)) cs Hcs) as Hk.
    by destruct (on_redis (redis_delete _) cs) as [[[]|e] cs1].
  - rewrite delete_context_memory by done. by apply keys_agree_drop.
Qed.

Lemma keys_agree_update_context sid data t1 t2 t3 t4 cs :
  keys_agree cs → keys_agree (update_context sid data t1 t2 t3 t4 cs).2.
Proof.
  intros Hcs. unfold update_context. run_st.
  pose proof (keys_agree_get_context sid t1 t2 cs Hcs) as Hk.
  destruct (get_context sid t1 t2 cs) as [[found|e] cs1]; [|done].
  pose proof (keys_agree_store_context sid (data ∪ or_empty found) t3 t4 cs1 Hk) as Hk'.
  by destruct (store_context _ _ _ _ cs1) as [[b|e] cs2].
Qed.

(** *** C8: a mapping written is the mapping read back *)

Lemma stored_lookup sid ctx now cs :
  memory_store (stored sid ctx now cs) !! sid = Some ctx
  ∧ memory_timestamps (stored sid ctx now cs) !! sid = Some now.
Proof. cbn. by rewrite !lookup_insert_eq. Qed.

Lemma Qgtb_false (a b : Q) : (a <= b)%Q → Qgtb a b = false.
Proof. intros Hle. unfold Qgtb. apply Qle_bool_iff in Hle. by rewrite Hle. Qed.

Lemma Qgtb_true (a b : Q) : (b < a)%Q → Qgtb a b = true.
Proof.
  intros Hlt. unfold Qgtb. destruct (Qle_bool a b) eqn:E; [|done].
  apply Qle_bool_iff in E. lra.
Qed.

(** After a put, the session is there with the put's clock reading,
    provided the sweep that may follow does not already find it expired. *)
Lemma store_context_lookup sid ctx now sweep cs :
  use_redis cs = false →
  (sweep - now <= inject_Z (context_ttl cs))%Q →
  let cs1 := (store_context sid ctx now sweep cs).2 in
  use_redis cs1 = false ∧ context_ttl cs1 = context_ttl cs
  ∧ memory_store cs1 !! sid = Some ctx ∧ memory_timestamps cs1 !! sid = Some now.
Proof.
  intros Hmem Hsweep. rewrite store_context_memory by done. cbn [snd].
  destruct (stored_lookup sid ctx now cs) as [Hs Ht].
  destruct (_ =? _)%Z; [|done].
  destruct (clean_expired_config sweep (stored sid ctx now cs)) as (-> & -> & _).
  rewrite clean_expired_store, clean_expired_timestamps, Ht by done.
  cbn [stored set_memory_timestamps set_memory_store context_ttl].
  rewrite Qgtb_false by done. by rewrite <- Hs.
Qed.

Lemma get_context_hit sid ctx t now refresh cs :
  use_redis cs = false →
  memory_store cs !! sid = Some ctx →
  memory_timestamps cs !! sid = Some t →
  (now - t <= inject_Z (context_ttl cs))%Q →
  get_context sid now refresh cs
  = (Return (Some ctx), set_memory_timestamps <[sid := refresh]> cs).
Proof.
  intros Hmem Hs Ht Hfresh. rewrite get_context_memory, Hs, Ht by done.
  apply Qle_bool_iff in Hfresh. by rewrite Hfresh.
Qed.

Lemma get_context_expired sid t now refresh cs :
  use_redis cs = false →
  memory_timestamps cs !! sid = Some t →
  (inject_Z (context_ttl cs) < now - t)%Q →
  get_context sid now refresh cs
  = (Return None, match memory_store cs !! sid with Some _ => drop_session sid cs | None => cs end).
Proof.
  intros Hmem Ht Hold. rewrite get_context_memory, Ht by done.
  destruct (memory_store cs !! sid) as [c|]; [|done].
  destruct (Qle_bool _ _) eqn:E; [|done]. apply Qle_bool_iff in E. lra.
Qed.

Lemma get_context_absent sid now refresh cs :
  use_redis cs = false →
  memory_store cs !! sid = None →
  get_context sid now refresh cs = (Return None, cs).
Proof. intros Hmem Hs. by rewrite get_context_memory, Hs. Qed.

#[local] Hint Resolve keys_agree_store_context keys_agree_get_context
  keys_agree_update_context keys_agree_delete_context keys_agree_clean : store_inv.

Lemma keys_agree_run_op op cs : keys_agree cs → keys_agree (run_op op cs).
Proof. destruct op; cbn [run_op]; eauto with store_inv. Qed.

(** C10. Whatever sequence of [store_context], [get_context],
    [update_context], [delete_context] calls and expiry sweeps a freshly
    initialised store goes through, [memory_store] and
    [memory_timestamps] have the same set of session identifiers: a
    session has a stored context exactly when it has a timestamp. *)
Theorem memory_keys_agree (ops : list StoreOp) (env_use_redis : bool) (env_ttl : Z) (client : R) :
  let cs := run_ops ops (__init__ env_use_redis env_ttl client) in
  keys_agree cs
  ∧ ∀ sid, is_Some (memory_store cs !! sid) ↔ is_Some (memory_timestamps cs !! sid).
Proof.
  assert (keys_agree (run_ops ops (__init__ env_use_redis env_ttl client))) as Hkeys.
  { unfold run_ops.
    assert (keys_agree (__init__ env_use_redis env_ttl client)) as Hinit by done.
    revert Hinit. generalize (__init__ env_use_redis env_ttl client).
    induction ops as [|op ops IH]; intros cs Hcs; [done|].
    cbn [foldl]. by apply IH, keys_agree_run_op. }
  split; [done|]. intros sid. by rewrite <- !elem_of_dom, Hkeys.
Qed.

(** *** Sessions under other operations *)

Lemma try_except_ret_returns {S A} (body : M S A) (fallback : A) (s : S) :
  ∃ a, (St.try_except body (λ _, St.ret fallback) s).1 = Return a.
Proof. unfold St.try_except, St.ret. destruct (body s) as [[a|e] s']; eauto. Qed.

Lemma get_context_never_raises sid now refresh cs :
  ∃ found, (get_context sid now refresh cs).1 = Return found.
Proof. apply try_except_ret_returns. Qed.

Lemma store_context_never_raises sid ctx now sweep cs :
  ∃ ok, (store_context sid ctx now sweep cs).1 = Return ok.
Proof. apply try_except_ret_returns. Qed.

(** [update_context] leaves the store as its [get_context] followed by
    its [store_context] leave it. *)
Lemma update_context_state sid data t1 t2 t3 t4 cs :
  ∃ found,
    (get_context sid t1 t2 cs).1 = Return found
    ∧ (update_context sid data t1 t2 t3 t4 cs).2
      = (store_context sid (data ∪ or_empty found) t3 t4 (get_context sid t1 t2 cs).2).2.
Proof.
  destruct (get_context_never_raises sid t1 t2 cs) as [found Hfound].
  exists found. split; [done|].
  unfold update_context. run_st.
  destruct (get_context sid t1 t2 cs) as [got cs1]. cbn in Hfound. subst got. cbn [snd].
  destruct (store_context_never_raises sid (data ∪ or_empty found) t3 t4 cs1) as [ok Hok].
  destruct (store_context _ _ _ _ cs1) as [r cs2]. cbn in Hok. by subst r.
Qed.

Lemma memory_mode_run_op op cs :
  use_redis cs = false →
  use_redis (run_op op cs) = false ∧ context_ttl (run_op op cs) = context_ttl cs.
Proof.
  assert (∀ s c now sweep cs1, use_redis cs1 = false →
            use_redis (store_context s c now sweep cs1).2 = false
            ∧ context_ttl (store_context s c now sweep cs1).2 = context_ttl cs1) as Hput.
  { intros s c now sweep cs1 Hmem. rewrite store_context_memory by done. cbn [snd].
    destruct (_ =? _)%Z; [|done].
    by destruct (clean_expired_config sweep (stored s c now cs1)) as (-> & -> & _). }
  assert (∀ s now refresh cs1, use_redis cs1 = false →
            use_redis (get_context s now refresh cs1).2 = false
            ∧ context_ttl (get_context s now refresh cs1).2 = context_ttl cs1) as Hget.
  { intros s now refresh cs1 Hmem. rewrite get_context_memory by done.
    destruct (memory_store cs1 !! s); [|done].
    destruct (memory_timestamps cs1 !! s); [|done]. by destruct (Qle_bool _ _). }
  intros Hmem. destruct op as [s c now sweep|s now refresh|s data t1 t2 t3 t4|s|now]; cbn [run_op].
  - by apply Hput.
  - by apply Hget.
  - destruct (update_context_state s data t1 t2 t3 t4 cs) as (found & _ & ->).
    destruct (Hget s t1 t2 cs Hmem) as [Hmem1 <-]. by apply Hput.
  - by rewrite delete_context_memory.
  - by destruct (clean_expired_config now cs) as (-> & -> & _).
Qed.

Lemma holds_clean sid ctx last now cs :
  (now - last <= inject_Z (context_ttl cs))%Q →
  holds sid ctx last cs → holds sid ctx last (_clean_expired_sessions now cs).
Proof.
  intros Hfresh (Hmem & Hs & Ht). unfold holds.
  rewrite clean_expired_store, clean_expired_timestamps, Ht by done.
  rewrite Qgtb_false by done.
  by destruct (clean_expired_config now cs) as (-> & _).
Qed.

Lemma holds_store_other sid ctx last s c now sweep cs :
  s ≠ sid →
  (sweep - last <= inject_Z (context_ttl cs))%Q →
  holds sid ctx last cs → holds sid ctx last (store_context s c now sweep cs).2.
Proof.
  intros Hne Hfresh (Hmem & Hs & Ht). rewrite store_context_memory by done. cbn [snd].
  assert (holds sid ctx last (stored s c now cs)) as Hstored.
  { unfold holds. cbn. by rewrite !lookup_insert_ne. }
  destruct (_ =? _)%Z; [|done]. by apply holds_clean.
Qed.

Lemma holds_get_other sid ctx last s now refresh cs :
  s ≠ sid →
  holds sid ctx last cs → holds sid ctx last (get_context s now refresh cs).2.
Proof.
  intros Hne (Hmem & Hs & Ht). rewrite get_context_memory by done.
  destruct (memory_store cs !! s); [|done].
  destruct (memory_timestamps cs !! s); [|done].
  destruct (Qle_bool _ _); unfold holds; cbn.
  - by rewrite lookup_insert_ne.
  - by rewrite !lookup_delete_ne.
Qed.

Lemma holds_get_same sid ctx last now refresh cs :
  (now - last <= inject_Z (context_ttl cs))%Q →
  holds sid ctx last cs →
  (get_context sid now refresh cs).1 = Return (Some ctx)
  ∧ holds sid ctx refresh (get_context sid now refresh cs).2.
Proof.
  intros Hfresh (Hmem & Hs & Ht). rewrite (get_context_hit sid ctx last) by done.
  split; [done|]. unfold holds. cbn. by rewrite lookup_insert_eq.
Qed.

(** One operation that leaves [sid] alone and finds it fresh. *)
Lemma holds_run_op sid ctx last op cs :
  foreign sid op →
  Forall (λ r, (r - last <= inject_Z (context_ttl cs))%Q) (compared sid op) →
  holds sid ctx last cs → holds sid ctx (touch sid last op) (run_op op cs).
Proof.
  intros Hforeign Hfresh Hheld.
  destruct op as [s c now sweep|s now refresh|s data t1 t2 t3 t4|s|now];
    cbn [run_op touch compared foreign] in *.
  - rewrite Forall_singleton in Hfresh. by apply holds_store_other.
  - destruct (decide (s = sid)) as [->|Hne].
    + rewrite Forall_singleton in Hfresh.
      by destruct (holds_get_same sid ctx last now refresh cs) as [_ ?].
    + by apply holds_get_other.
  - rewrite Forall_singleton in Hfresh.
    destruct (update_context_state s data t1 t2 t3 t4 cs) as (found & _ & ->).
    pose proof (holds_get_other sid ctx last s t1 t2 cs Hforeign Hheld) as Hheld1.
    apply holds_store_other; [done| |done].
    destruct Hheld as (Hmem & _).
    destruct (memory_mode_run_op (OpGet s t1 t2) cs Hmem) as [_ Httl].
    cbn [run_op] in Httl. by rewrite Httl.
  - destruct Hheld as (Hmem & Hs & Ht). rewrite delete_context_memory by done.
    unfold holds. cbn. by rewrite !lookup_delete_ne.
  - rewrite Forall_singleton in Hfresh. by apply holds_clean.
Qed.

Lemma holds_run_ops sid ctx (ops : list StoreOp) last cs :
  kept_fresh (context_ttl cs) sid last ops →
  holds sid ctx last cs →
  holds sid ctx (foldl (touch sid) last ops) (run_ops ops cs)
  ∧ context_ttl (run_ops ops cs) = context_ttl cs.
Proof.
  revert last cs. induction ops as [|op ops IH]; intros last cs Hfresh Hheld; [done|].
  destruct Hfresh as (Hforeign & Hcmp & Hrest). cbn [foldl run_ops].
  pose proof (holds_run_op sid ctx last op cs Hforeign Hcmp Hheld) as Hheld1.
  destruct (memory_mode_run_op op cs) as [_ Httl]; [by destruct Hheld|].
  rewrite <- Httl in Hrest. destruct (IH _ _ Hrest Hheld1) as [Hheld2 Httl2].
  split; [done|]. unfold run_ops in Httl2. by rewrite Httl2.
Qed.

Lemma compared_readings sid op (r : Q) : r ∈ compared sid op → r ∈ readings op.
Proof.
  destruct op; cbn; try case_decide;
    rewrite ?elem_of_cons, ?elem_of_nil; intuition.
Qed.

(** With a clock that stays between the put and the read, and the read
    no later than the TTL after the put, the session is kept fresh. *)
Lemma between_kept_fresh ttl sid (lo hi : Q) (ops : list StoreOp) last :
  (hi - lo <= inject_Z ttl)%Q →
  (lo <= last)%Q →
  Forall (λ op, foreign sid op ∧ between lo hi op) ops →
  kept_fresh ttl sid last ops ∧ (lo <= foldl (touch sid) last ops)%Q.
Proof.
  intros Hspan. revert last. induction ops as [|op ops IH]; intros last Hlast Hops; [done|].
  apply Forall_cons in Hops as [[Hforeign Hbetween] Hops]. cbn [kept_fresh foldl].
  assert (lo <= touch sid last op)%Q as Htouch.
  { destruct op; cbn; try done. case_decide; [|done].
    apply Forall_cons in Hbetween as [_ Hbetween].
    by apply Forall_cons in Hbetween as [[? _] _]. }
  destruct (IH _ Htouch Hops) as [Hfresh Hlo]. repeat split; try done.
  assert (∀ r, r ∈ readings op → (r - last <= inject_Z ttl)%Q) as Hwithin.
  { intros r Hr. unfold between in Hbetween. rewrite Forall_forall in Hbetween.
    destruct (Hbetween r Hr). lra. }
  apply Forall_forall. intros r Hr. by apply Hwithin, (compared_readings sid).
Qed.

(** A session that is not in memory stays out until it is written. *)
Lemma absent_run_op sid op cs :
  no_put sid op →
  use_redis cs = false → memory_store cs !! sid = None →
  memory_store (run_op op cs) !! sid = None.
Proof.
  assert (∀ now cs1, use_redis cs1 = false → memory_store cs1 !! sid = None →
            memory_store (_clean_expired_sessions now cs1) !! sid = None) as Hclean.
  { intros now cs1 Hmem Hs. rewrite clean_expired_store by done.
    destruct (memory_timestamps cs1 !! sid); [|done]. by destruct (Qgtb _ _). }
  assert (∀ s c now sweep cs1, s ≠ sid → use_redis cs1 = false →
            memory_store cs1 !! sid = None →
            memory_store (store_context s c now sweep cs1).2 !! sid = None) as Hput.
  { intros s c now sweep cs1 Hne Hmem Hs. rewrite store_context_memory by done. cbn [snd].
    assert (memory_store (stored s c now cs1) !! sid = None) as Hstored
      by (cbn; by rewrite lookup_insert_ne).
    destruct (_ =? _)%Z; [|done]. by apply Hclean. }
  assert (∀ s now refresh cs1, use_redis cs1 = false → memory_store cs1 !! sid = None →
            memory_store (get_context s now refresh cs1).2 !! sid = None) as Hget.
  { intros s now refresh cs1 Hmem Hs. rewrite get_context_memory by done.
    destruct (memory_store cs1 !! s) eqn:Hs'; [|done].
    destruct (memory_timestamps cs1 !! s); [|done].
    destruct (Qle_bool _ _); [done|]. cbn.
    destruct (decide (s = sid)) as [->|Hne]; [apply lookup_delete_eq|].
    by rewrite lookup_delete_ne. }
  intros Hput_free Hmem Hs.
  destruct op as [s c now sweep|s now refresh|s data t1 t2 t3 t4|s|now];
    cbn [run_op no_put] in *.
  - by apply Hput.
  - by apply Hget.
  - destruct (update_context_state s data t1 t2 t3 t4 cs) as (found & _ & ->).
    apply Hput; [done| |by apply Hget].
    by destruct (memory_mode_run_op (OpGet s t1 t2) cs Hmem) as [? _].
  - rewrite delete_context_memory by done. cbn.
    destruct (decide (s = sid)) as [->|Hne]; [apply lookup_delete_eq|].
    by rewrite lookup_delete_ne.
  - by apply Hclean.
Qed.

Lemma absent_run_ops sid (ops : list StoreOp) cs :
  Forall (no_put sid) ops →
  use_redis cs = false → memory_store cs !! sid = None →
  use_redis (run_ops ops cs) = false ∧ memory_store (run_ops ops cs) !! sid = None.
Proof.
  revert cs. induction ops as [|op ops IH]; intros cs Hops Hmem Hs; [done|].
  apply Forall_cons in Hops as [Hop Hops]. cbn [run_ops foldl].
  apply IH; [done| |by apply absent_run_op].
  by destruct (memory_mode_run_op op cs Hmem).
Qed.

(** C8. In-memory store.  After a [store_context] for a session, a
    [get_context] for it returns the mapping written, provided the read
    comes no later than the TTL after the put and the operations in
    between, whose clock readings lie between the two, neither write
    nor delete that session. *)
Theorem get_after_store_roundtrip sid ctx (t_put t_sweep t_get t_refresh : Q)
    (ops : list StoreOp) cs :
  use_redis cs = false →
  (t_sweep <= t_get)%Q →
  (t_get - t_put <= inject_Z (context_ttl cs))%Q →
  Forall (λ op, foreign sid op ∧ between t_put t_get op) ops →
  (store_context sid ctx t_put t_sweep cs).1 = Return true
  ∧ (get_context sid t_get t_refresh
       (run_ops ops (store_context sid ctx t_put t_sweep cs).2)).1
    = Return (Some ctx).
Proof.
  intros Hmem Hclock Hspan Hops. split; [by rewrite store_context_memory|].
  destruct (store_context_lookup sid ctx t_put t_sweep cs) as (Hmem1 & Httl & Hs & Ht);
    [done | lra |].
  set (cs1 := (store_context sid ctx t_put t_sweep cs).2) in *.
  destruct (between_kept_fresh (context_ttl cs1) sid t_put t_get ops t_put)
    as [Hfresh Hlast]; [by rewrite Httl | lra | done |].
  destruct (holds_run_ops sid ctx ops t_put cs1 Hfresh) as [Hheld Httl2]; [done|].
  apply (holds_get_same sid ctx _ t_get t_refresh) in Hheld as [Hgot _]; [done|].
  rewrite Httl2, Httl. lra.
Qed.

(** C9. In-memory store, for a session held with timestamp [t].
    (1) A [get_context] no later than the TTL after [t] returns the
    mapping and moves the timestamp to the clock reading it writes
    back; a [store_context] moves it to the reading of the put.
    (2) After any operations that keep the session fresh (each reading
    compared with its timestamp comes no later than the TTL after the
    last access, and none writes or deletes it), a read no later than
    the TTL after the last access finds it.  (3) A read more than the
    TTL after [t] finds nothing, and neither does any later read, until
    the session is written again. *)
Theorem sliding_ttl sid ctx (t : Q) cs :
  holds sid ctx t cs →
  (∀ now refresh, (now - t <= inject_Z (context_ttl cs))%Q →
     (get_context sid now refresh cs).1 = Return (Some ctx)
     ∧ memory_timestamps (get_context sid now refresh cs).2 !! sid = Some refresh)
  ∧ (∀ ctx' now sweep, (sweep - now <= inject_Z (context_ttl cs))%Q →
     memory_timestamps (store_context sid ctx' now sweep cs).2 !! sid = Some now)
  ∧ (∀ ops now refresh,
       kept_fresh (context_ttl cs) sid t ops →
       (now - foldl (touch sid) t ops <= inject_Z (context_ttl cs))%Q →
       (get_context sid now refresh (run_ops ops cs)).1 = Return (Some ctx))
  ∧ (∀ now refresh ops now' refresh',
       (inject_Z (context_ttl cs) < now - t)%Q →
       Forall (no_put sid) ops →
       (get_context sid now refresh cs).1 = Return None
       ∧ (get_context sid now' refresh'
            (run_ops ops (get_context sid now refresh cs).2)).1 = Return None).
Proof.
  intros Hheld. pose proof Hheld as (Hmem & Hs & Ht). split; [|split; [|split]].
  - intros now refresh Hnow. erewrite get_context_hit by done.
    split; [done|]. apply lookup_insert_eq.
  - intros ctx' now sweep Hsweep.
    by destruct (store_context_lookup sid ctx' now sweep cs) as (_ & _ & _ & ?).
  - intros ops now refresh Hfresh Hnow.
    destruct (holds_run_ops sid ctx ops t cs Hfresh Hheld) as [Hheld' Httl].
    apply (holds_get_same sid ctx _ now refresh) in Hheld' as [Hgot _]; [done|].
    by rewrite Httl.
  - intros now refresh ops now' refresh' Hold Hops.
    erewrite get_context_expired by done. rewrite Hs. cbn [fst snd]. split; [done|].
    destruct (absent_run_ops sid ops (drop_session sid cs)) as [Hmem' Hs'];
      [done | done | apply lookup_delete_eq |].
    by rewrite get_context_absent.
Qed.

End ContextStoreFacts.

(** * Properties of the orchestrator *)

Section OrchestratorFacts.
Context {R : Type} {redis : RedisClient R} {json : JsonCodec} {text : StrMethods}.
Variable self : Collaborators.


Lemma from_dict_and_current_agent state built :
  AgentState_from_dict_and state "current_agent" built = Raise (duplicate_keyword "current_agent").
Proof. reflexivity. Qed.

Lemma from_dict_and_error state built :
  AgentState_from_dict_and state "error" built = Raise (duplicate_keyword "error").
Proof. reflexivity. Qed.

(** The registry has four keys. *)
Lemma registry_keys :
  dom (agents self)
  = ({[ "github"; "proposal_validator"; "lead_generation"; "outreach" ]} : gset string).
Proof. vm_compute. reflexivity. Qed.

Lemma parse_intent_raises state : _parse_intent self state = Raise (duplicate_keyword "error").
Proof.
  unfold _parse_intent, Res.try_except, Res.bind.
  by destruct (classifier self _).
Qed.

Lemma run_agent_raises_or_merges name label state :
  run_agent self name label state = Raise (duplicate_keyword "error")
  ∨ ∃ (agent : Agent) agent_result live fragment,
      agents self !! name = Some agent
      ∧ agent (user_input state) (context state) = (Return agent_result, live)
      ∧ as_mapping (dict_get agent_result "context" (VDict ∅)) = Some fragment
      ∧ run_agent self name label state
        = Return (mkAgentState (user_input state) (fragment ∪ live)
                    (history state ++ [history_entry name state agent_result])
                    (Some name) (Some agent_result) None).
Proof.
  unfold run_agent, on_context, dict_getitem, dict_update. run_st.
  destruct (agents self !! name) as [agent|] eqn:Hagent; [|by left].
  destruct (agent _ _) as [[agent_result|e] live] eqn:Hrun; cbn; [|by left].
  destruct (as_mapping _) as [fragment|] eqn:Hfrag; cbn; [|by left].
  right. by exists agent, agent_result, live, fragment.
Qed.

(** A handler that raises, or whose context fragment cannot be merged:
    the [except] branch raises in turn. *)
Lemma run_agent_handler_fails name label (agent : Agent) state :
  agents self !! name = Some agent →
  ((∃ e live, agent (user_input state) (context state) = (Raise e, live))
   ∨ (∃ agent_result live,
        agent (user_input state) (context state) = (Return agent_result, live)
        ∧ as_mapping (dict_get agent_result "context" (VDict ∅)) = None)) →
  run_agent self name label state = Raise (duplicate_keyword "error").
Proof.
  intros Hagent Hfails. unfold run_agent, on_context, dict_getitem, dict_update. run_st.
  rewrite Hagent.
  by destruct Hfails as [(e & live & ->)|(agent_result & live & -> & Hfrag)];
    cbn; rewrite ?Hfrag.
Qed.

Lemma action_runner router node name :
  runner_name node = Some name →
  action (_build_workflow self router) node = run_agent self name (runner_label node).
Proof. destruct node; intros [= <-]; reflexivity. Qed.


(** C7 as the code has it.  A runner node that returns (a successful
    dispatch) has called the handler registered under its name on the
    context of the state, and the handler's context fragment is a
    mapping.  In the new turn state every key of the fragment has the
    fragment's value, whole; every other key has the value it has in
    the mapping as the handler left it, which is the value it had when
    the handler did not change the mapping; and the history is the old
    one followed by one entry whose [agent] is the capability, whose
    [input] is the user input and whose [output] is the [response] of
    the handler's result, or the empty string without one. *)
Theorem dispatch_merges_shallowly router node name state state' :
  runner_name node = Some name →
  action (_build_workflow self router) node state = Return state' →
  ∃ (agent : Agent) agent_result live fragment,
    agents self !! name = Some agent
    ∧ agent (user_input state) (context state) = (Return agent_result, live)
    ∧ as_mapping (dict_get agent_result "context" (VDict ∅)) = Some fragment
    ∧ (∀ key v, fragment !! key = Some v → context state' !! key = Some v)
    ∧ (∀ key, fragment !! key = None → context state' !! key = live !! key)
    ∧ (live = context state →
       ∀ key, fragment !! key = None → context state' !! key = context state !! key)
    ∧ history state'
      = history state
        ++ [ {[ "agent" := VStr name;
                "input" := VStr (user_input state);
                "output" := dict_get agent_result "response" (VStr "") ]} ]
    ∧ user_input state' = user_input state
    ∧ current_agent state' = Some name
    ∧ output state' = Some agent_result
    ∧ error state' = None.
Proof.
  intros Hname Hrun. rewrite (action_runner _ _ _ Hname) in Hrun.
  destruct (run_agent_raises_or_merges name (runner_label node) state)
    as [Hraise | (agent & agent_result & live & fragment & Hagent & Hcall & Hfrag & Hret)];
    [congruence|].
  rewrite Hret in Hrun. injection Hrun as <-.
  exists agent, agent_result, live, fragment. cbn.
  split; [done|]. split; [done|]. split; [done|]. split; [|split; [|split]]; [| | |done].
  - intros key v Hkey. by apply lookup_union_Some_l.
  - intros key Hkey. by apply lookup_union_r.
  - intros -> key Hkey. by apply lookup_union_r.
Qed.

(** C4, as the code behaves.  Whatever the classifier answers or
    raises, [_parse_intent] raises [TypeError]: both places where it
    builds its result hand [AgentState] a keyword that the unpacked
    [state.dict()] already carries. *)
Theorem parse_intent_never_returns state :
  _parse_intent self state = Raise (duplicate_keyword "error")
  ∧ ∀ routed, _parse_intent self state ≠ Return routed.
Proof. rewrite parse_intent_raises. by split. Qed.

(** *** The graph *)

Lemma graph_run_visited g fuel r visited :
  graph_run g fuel r visited
  = ((graph_run g fuel r []).1, visited ++ (graph_run g fuel r []).2).
Proof.
  revert r visited. induction fuel as [|fuel IH]; intros r visited.
  - cbn. by rewrite app_nil_r.
  - destruct r as [node state| |]; cbn; try by rewrite app_nil_r.
    rewrite (IH _ (visited ++ [node])), (IH _ [node]). cbn. by rewrite <- app_assoc.
Qed.

Lemma graph_run_stopped g fuel r visited :
  (∀ node state, r ≠ Running node state) → graph_run g fuel r visited = (r, visited).
Proof. intros Hr. destruct fuel, r; try done. by destruct (Hr node state). Qed.

Lemma graph_run_S g fuel node state visited :
  graph_run g (S fuel) (Running node state) visited
  = graph_run g fuel (graph_step g (Running node state)) (visited ++ [node]).
Proof. reflexivity. Qed.

(** The router raises: the run is over after one node. *)
Lemma invoke_router_raises router fuel state e :
  router state = Raise e →
  invoke (_build_workflow self router) (S fuel) state = (Some (Raise e), [parse_intent]).
Proof.
  intros Hrouter. unfold invoke. cbn. rewrite Hrouter. by rewrite graph_run_stopped.
Qed.


(** *** [run_workflow] *)

Lemma run_workflow_on_unfold router fuel request session_id uuid4 clock (w : World R) :
  let sid := given_or_generated session_id uuid4 in
  let run := invoke (_build_workflow self router) fuel
               (initial_state request (loaded_context sid clock w)) in
  run_workflow_on self router fuel request session_id uuid4 clock w
  = match run.1 with
    | None => None
    | Some outcome =>
        Some (Return (response_of sid outcome),
              mkWorld
                (store_after sid clock outcome
                   (get_context sid (get_now clock) (get_refresh clock) (context_store w)).2)
                (store_calls w ++ CallGet sid :: puts_of sid outcome)
                (nodes_run w ++ run.2))
    end.
Proof.
  intros sid run. unfold run_workflow_on, loaded_context in *. fold sid.
  unfold on_store at 1.
  destruct (get_context_never_raises sid (get_now clock) (get_refresh clock) (context_store w))
    as [found Hfound].
  destruct (get_context sid _ _ (context_store w)) as [got cs1]. cbn [fst snd] in *.
  subst got run. destruct (invoke _ fuel _) as [[outcome|] visited]; [|done].
  cbn [fst snd]. f_equal.
  unfold St.try_except, St.bind, St.lift, St.ret, record_nodes.
  destruct outcome as [final|e]; cbn; [|done].
  destruct (dict_truthy (context final)); [|done].
  unfold on_store. cbn.
  destruct (store_context_never_raises sid (context final) (put_now clock) (put_sweep clock) cs1)
    as [ok Hok].
  destruct (store_context sid _ _ _ cs1) as [stored cs2]. cbn in *. subst stored.
  by rewrite <- app_assoc.
Qed.

Lemma invoke_parse_intent fuel state :
  invoke (_build_workflow self (_parse_intent self)) (S fuel) state
  = (Some (Raise (duplicate_keyword "error")), [parse_intent]).
Proof. apply invoke_router_raises, parse_intent_raises. Qed.

Lemma run_workflow_eval fuel request session_id uuid4 clock (w : World R) :
  let sid := given_or_generated session_id uuid4 in
  run_workflow self (S fuel) request session_id uuid4 clock w
  = Some (Return (Response.mk sid None
                    (Some ("Workflow error: " +:+ str (duplicate_keyword "error"))) None),
          mkWorld (get_context sid (get_now clock) (get_refresh clock) (context_store w)).2
            (store_calls w ++ [CallGet sid]) (nodes_run w ++ [parse_intent])).
Proof.
  intros sid. unfold run_workflow. rewrite run_workflow_on_unfold. fold sid.
  by rewrite invoke_parse_intent.
Qed.

(** C5. [run_workflow] answers every call with a response dictionary
    carrying the given or generated session identifier, whatever the
    classifier, the handlers and the storage backend do.  With any
    router node in the graph the same holds whenever the graph ends: a
    final state is turned into a response, and an exception raised by
    the graph into the response with the [Workflow error] message and no
    output; nothing is ever re-raised. *)
Theorem run_workflow_always_answers fuel request session_id uuid4 clock (w : World R) :
  let sid := given_or_generated session_id uuid4 in
  (∃ response w',
     run_workflow self (S fuel) request session_id uuid4 clock w = Some (Return response, w')
     ∧ Response.session_id response = sid)
  ∧ ∀ router fuel',
      match (invoke (_build_workflow self router) fuel'
               (initial_state request (loaded_context sid clock w))).1 with
      | None => run_workflow_on self router fuel' request session_id uuid4 clock w = None
      | Some outcome =>
          ∃ w', run_workflow_on self router fuel' request session_id uuid4 clock w
                = Some (Return (response_of sid outcome), w')
      end.
Proof.
  intros sid. split.
  - rewrite run_workflow_eval. eauto.
  - intros router fuel'. rewrite run_workflow_on_unfold. fold sid.
    destruct (invoke _ _ _).1; eauto.
Qed.

(** The store calls of [run_workflow], whatever router node the graph
    has.  Each call makes one [get_context] call, first.  When the graph
    returns a final state, one [store_context] call of the final context
    follows exactly when that context is non-empty; when the graph
    raises, none follows. *)
Lemma store_calls_of_run_workflow router fuel request session_id uuid4 clock (w : World R) :
  let sid := given_or_generated session_id uuid4 in
  match (invoke (_build_workflow self router) fuel
           (initial_state request (loaded_context sid clock w))).1 with
  | None => run_workflow_on self router fuel request session_id uuid4 clock w = None
  | Some outcome =>
      ∃ response w',
        run_workflow_on self router fuel request session_id uuid4 clock w
        = Some (Return response, w')
        ∧ store_calls w' = store_calls w ++ CallGet sid :: puts_of sid outcome
  end.
Proof.
  intros sid. rewrite run_workflow_on_unfold. fold sid.
  destruct (invoke _ _ _).1; eauto.
Qed.


(** *** A turn without a route *)



(** *** No chain limit *)

Lemma truthy_key_dict_truthy (d : gmap string value) key :
  truthy (dict_get d key (VBool false)) = true → dict_truthy d = true.
Proof.
  unfold dict_get, dict_truthy. destruct (d !! key) as [v|] eqn:Hkey; [|done]. intros _.
  case_bool_decide as Hsize; [|done].
  apply map_size_empty_iff in Hsize. subst d. by rewrite lookup_empty in Hkey.
Qed.




End OrchestratorFacts.

(** * The scenarios, evaluated *)

(** The scenarios run with the methods of strings on ASCII text:
    white space around the answer goes and capitals are lowered before
    the answer is looked up in the registry. *)
Example answer_is_stripped_and_lowered :
  lower (strip (" GitHub " +:+ newline)) = "github"
  ∧ agents issues_orchestrator !! lower (strip (" GitHub " +:+ newline)) = Some issues_agent
  ∧ agents issues_orchestrator !! lower (strip "") = None.
Proof. vm_compute. done. Qed.


(** C2, the failing input.  The classifier answers [github] and the
    GitHub handler would return the three open issues, but the router
    raises before any handler runs: the response is a workflow error
    and nothing is stored. *)
Theorem github_request_ends_in_workflow_error :
  run_workflow issues_orchestrator 5 "list open issues for owner/repo" (Some "s1") "uuid"
    noon fresh_world
  = Some (Return (Response.mk "s1" None
                    (Some ("Workflow error: " +:+ str (duplicate_keyword "error"))) None),
          mkWorld fresh_store [CallGet "s1"] [parse_intent]).
Proof. vm_compute. reflexivity. Qed.

(** The same request on a graph whose router node is the test suite's
    function: the response and the store are the ones the scenario
    expects. *)
Lemma github_request_with_stub_router :
  match run_workflow_on issues_orchestrator mock_parse_intent 5
          "list open issues for owner/repo" (Some "s1") "uuid" noon fresh_world with
  | Some (Return response, w') =>
      response = Response.mk "s1" (Some (VStr "3 open issues")) None (Some "github")
      ∧ match memory_store (context_store w') !! "s1" with
        | Some stored => is_Some (stored !! "github")
        | None => False
        end
  | _ => False
  end.
Proof. vm_compute. eauto. Qed.


(** C7, an instance: the stored [github] namespace holds two keys, the
    handler returns a fragment whose [github] namespace holds one; the
    merged context has the fragment's namespace, and [notes] as it was. *)
Lemma dispatch_merges_shallowly_witness :
  ∃ (agent : Agent) agent_result live fragment,
    agents overwriting_orchestrator !! "github" = Some agent
    ∧ agent (user_input nested_state) (context nested_state) = (Return agent_result, live)
    ∧ as_mapping (dict_get agent_result "context" (VDict ∅)) = Some fragment
    ∧ (∀ key v, fragment !! key = Some v → context overwritten_state !! key = Some v)
    ∧ (∀ key, fragment !! key = None → context overwritten_state !! key = live !! key)
    ∧ (live = context nested_state →
       ∀ key, fragment !! key = None →
         context overwritten_state !! key = context nested_state !! key)
    ∧ history overwritten_state
      = history nested_state
        ++ [ {[ "agent" := VStr "github";
                "input" := VStr (user_input nested_state);
                "output" := dict_get agent_result "response" (VStr "") ]} ]
    ∧ user_input overwritten_state = user_input nested_state
    ∧ current_agent overwritten_state = Some "github"
    ∧ output overwritten_state = Some agent_result
    ∧ error overwritten_state = None.
Proof.
  apply (dispatch_merges_shallowly overwriting_orchestrator
           (_parse_intent overwriting_orchestrator) github_agent
           "github" nested_state overwritten_state).
  - reflexivity.
  - vm_compute. reflexivity.
Defined.

(** C7, counterexample.  A handler that takes [notes] out of the
    mapping it is given and returns no context fragment: the runner
    copies the mapping after the call, so [notes], a key absent from
    the fragment, is gone from the turn context. *)
Lemma handler_can_remove_a_context_key :
  context nested_state !! "notes" = Some (VStr "keep")
  ∧ match action (_build_workflow forgetful_orchestrator
                    (_parse_intent forgetful_orchestrator)) github_agent nested_state with
    | Return state' =>
        match output state' with
        | Some agent_result =>
            as_mapping (dict_get agent_result "context" (VDict ∅)) = Some ∅
        | None => False
        end
        ∧ context state' !! "notes" = None
        ∧ context state' !! "github" = context nested_state !! "github"
    | Raise _ => False
    end.
Proof. vm_compute. done. Qed.

Example nested_namespace_is_replaced :
  context overwritten_state !! "github" = Some (VDict {[ "open_issues" := VInt 3 ]})
  ∧ context overwritten_state !! "notes" = Some (VStr "keep").
Proof. vm_compute. done. Qed.

Lemma get_after_store_roundtrip_witness :
  (store_context "s1" test_context 0 0 fresh_store).1 = Return true
  ∧ (get_context "s1" 3240 3240
       (run_ops busy_hour (store_context "s1" test_context 0 0 fresh_store).2)).1
    = Return (Some test_context).
Proof.
  apply (get_after_store_roundtrip "s1" test_context 0 0 3240 3240 busy_hour fresh_store).
  - reflexivity.
  - vm_compute. discriminate.
  - vm_compute. discriminate.
  - repeat constructor; try done; vm_compute; discriminate.
Defined.

Lemma test_store_holds : holds "test_session" test_context 0 test_store.
Proof. vm_compute. done. Qed.

Lemma sliding_ttl_witness :
  (∀ now refresh, (now - 0 <= inject_Z (context_ttl test_store))%Q →
     (get_context "test_session" now refresh test_store).1 = Return (Some test_context)
     ∧ memory_timestamps (get_context "test_session" now refresh test_store).2
         !! "test_session" = Some refresh)
  ∧ (∀ ctx' now sweep, (sweep - now <= inject_Z (context_ttl test_store))%Q →
     memory_timestamps (store_context "test_session" ctx' now sweep test_store).2
       !! "test_session" = Some now)
  ∧ (∀ ops now refresh,
       kept_fresh (context_ttl test_store) "test_session" 0 ops →
       (now - foldl (touch "test_session") 0%Q ops <= inject_Z (context_ttl test_store))%Q →
       (get_context "test_session" now refresh (run_ops ops test_store)).1
       = Return (Some test_context))
  ∧ (∀ now refresh ops now' refresh',
       (inject_Z (context_ttl test_store) < now - 0)%Q →
       Forall (no_put "test_session") ops →
       (get_context "test_session" now refresh test_store).1 = Return None
       ∧ (get_context "test_session" now' refresh'
            (run_ops ops (get_context "test_session" now refresh test_store).2)).1
         = Return None).
Proof.
  apply (sliding_ttl "test_session" test_context 0 test_store).
  exact test_store_holds.
Defined.

(** A session read every 0.9 TTL (3240 of 3600 seconds) is still there
    after three TTLs; one left alone for 3601 seconds is gone, also for
    the read that follows. *)
Example periodic_reads_keep_the_session :
  (get_context "test_session" 12960 12960
     (run_ops [OpGet "test_session" 3240 3240; OpStore "s2" ∅ 4000 4000;
               OpGet "test_session" 6480 6480; OpSweep 7000;
               OpGet "test_session" 9720 9720] test_store)).1
  = Return (Some test_context).
Proof. vm_compute. reflexivity. Qed.

Example idle_session_expires :
  (get_context "test_session" 3600 3600 test_store).1 = Return (Some test_context)
  ∧ (get_context "test_session" 3601 3601 test_store).1 = Return None
  ∧ (get_context "test_session" 3602 3602
       (get_context "test_session" 3601 3601 test_store).2).1 = Return None.
Proof. vm_compute. done. Qed.

(** The tenth session stored triggers the sweep, which drops a session
    that was never read again. *)
Example sweep_purges_idle_session :
  let later := run_ops
    [OpStore "s1" ∅ 4000 4000; OpStore "s2" ∅ 4000 4000; OpStore "s3" ∅ 4000 4000;
     OpStore "s4" ∅ 4000 4000; OpStore "s5" ∅ 4000 4000; OpStore "s6" ∅ 4000 4000;
     OpStore "s7" ∅ 4000 4000; OpStore "s8" ∅ 4000 4000] test_store in
  memory_store later !! "test_session" = Some test_context
  ∧ memory_store (run_op (OpStore "s9" ∅ 4000 4000) later) !! "test_session" = None
  ∧ memory_timestamps (run_op (OpStore "s9" ∅ 4000 4000) later) !! "test_session" = None
  ∧ size (memory_store (run_op (OpStore "s9" ∅ 4000 4000) later)) = 9%nat.
Proof. vm_compute. done. Qed.

(** * More on the context store *)

Section ContextStoreMore.
Context {R : Type} {redis : RedisClient R} {json : JsonCodec}.
Implicit Types (cs : ContextStore R) (sid : string) (ctx : gmap string value).

Lemma or_empty_Some (d : gmap string value) : or_empty (Some d) = d.
Proof.
  unfold or_empty, dict_truthy. case_bool_decide as Hsize; [|done].
  cbn. symmetry. by apply map_size_empty_iff.
Qed.

Lemma drop_session_absent sid cs :
  memory_store cs !! sid = None → memory_timestamps cs !! sid = None →
  drop_session sid cs = cs.
Proof.
  intros Hs Ht. destruct cs as [u ttl client store stamps]. cbn in *.
  unfold drop_session, set_memory_timestamps, set_memory_store. cbn.
  by rewrite !delete_id.
Qed.

Lemma drop_session_lookup sid cs other :
  other ≠ sid →
  memory_store (drop_session sid cs) !! other = memory_store cs !! other
  ∧ memory_timestamps (drop_session sid cs) !! other = memory_timestamps cs !! other.
Proof. intros Hne. cbn. by rewrite !lookup_delete_ne. Qed.

(** *** Deleting a session *)

(** X1 ([delete_context], in memory): the call returns [True] and takes
    the session out of both dictionaries and leaves every other session
    as it was; after it a read of the session finds nothing, whatever
    reads, deletions, sweeps and writes of other sessions come in
    between, and whatever the clock says; deleting a session the store
    does not hold changes nothing. *)
Theorem deleted_session_is_gone sid (ops : list StoreOp) (now refresh : Q) cs :
  use_redis cs = false →
  Forall (no_put sid) ops →
  let cs' := (delete_context sid cs).2 in
  (delete_context sid cs).1 = Return true
  ∧ memory_store cs' !! sid = None
  ∧ memory_timestamps cs' !! sid = None
  ∧ (∀ other, other ≠ sid →
       memory_store cs' !! other = memory_store cs !! other
       ∧ memory_timestamps cs' !! other = memory_timestamps cs !! other)
  ∧ (get_context sid now refresh (run_ops ops cs')).1 = Return None
  ∧ (memory_store cs !! sid = None → memory_timestamps cs !! sid = None → cs' = cs).
Proof.
  intros Hmem Hops cs'. subst cs'. rewrite delete_context_memory by done. cbn [fst snd].
  split; [done|]. split; [apply lookup_delete_eq|]. split; [apply lookup_delete_eq|].
  split; [intros other Hne; by apply drop_session_lookup|]. split.
  - destruct (absent_run_ops sid ops (drop_session sid cs)) as [Hmem' Hs'];
      [done | done | apply lookup_delete_eq |].
    by rewrite get_context_absent.
  - apply drop_session_absent.
Qed.

(** *** Updating a session *)

Lemma update_context_memory sid data (t1 t2 t3 t4 : Q) cs :
  use_redis cs = false →
  ∃ found cs1,
    get_context sid t1 t2 cs = (Return found, cs1)
    ∧ use_redis cs1 = false
    ∧ context_ttl cs1 = context_ttl cs
    ∧ update_context sid data t1 t2 t3 t4 cs
      = store_context sid (data ∪ or_empty found) t3 t4 cs1.
Proof.
  intros Hmem.
  destruct (memory_mode_run_op (OpGet sid t1 t2) cs Hmem) as [Hmem1 Httl1]. cbn [run_op] in *.
  destruct (get_context_never_raises sid t1 t2 cs) as [found Hfound].
  unfold update_context. run_st.
  destruct (get_context sid t1 t2 cs) as [got cs1]. cbn [fst snd] in *. subst got.
  exists found, cs1. split; [done|]. split; [done|]. split; [done|].
  by rewrite (store_context_memory _ _ _ _ cs1).
Qed.

(** X2 ([update_context], in memory): the call returns [True] and
    leaves the session with the timestamp of its write.  What it holds
    afterwards is the update laid over what a read at that moment
    returns: over the stored mapping while the session is fresh (keys of
    the update win, the other keys stay), and the update alone when the
    session has expired or was never stored. *)
Theorem update_context_merges sid data (t1 t2 t3 t4 : Q) cs :
  use_redis cs = false →
  (t4 - t3 <= inject_Z (context_ttl cs))%Q →
  let cs' := (update_context sid data t1 t2 t3 t4 cs).2 in
  (update_context sid data t1 t2 t3 t4 cs).1 = Return true
  ∧ memory_timestamps cs' !! sid = Some t3
  ∧ (∀ ctx t, holds sid ctx t cs → (t1 - t <= inject_Z (context_ttl cs))%Q →
       memory_store cs' !! sid = Some (data ∪ ctx)
       ∧ (∀ key v, data !! key = Some v → (data ∪ ctx) !! key = Some v)
       ∧ (∀ key, data !! key = None → (data ∪ ctx) !! key = ctx !! key))
  ∧ (∀ ctx t, holds sid ctx t cs → (inject_Z (context_ttl cs) < t1 - t)%Q →
       memory_store cs' !! sid = Some data)
  ∧ (memory_store cs !! sid = None → memory_store cs' !! sid = Some data).
Proof.
  intros Hmem Hsweep cs'. subst cs'.
  destruct (update_context_memory sid data t1 t2 t3 t4 cs Hmem)
    as (found & cs1 & Hget & Hmem1 & Httl1 & ->).
  rewrite <- Httl1 in Hsweep.
  destruct (store_context_lookup sid (data ∪ or_empty found) t3 t4 cs1 Hmem1 Hsweep)
    as (_ & _ & Hs & Ht).
  split; [by rewrite store_context_memory|]. split; [done|]. split; [|split].
  - intros ctx t (_ & Hctx & Hstamp) Hfresh.
    rewrite (get_context_hit sid ctx t) in Hget by done.
    injection Hget as <- _. rewrite or_empty_Some in Hs |- *. split; [done|]. split.
    + intros key v Hkey. by apply lookup_union_Some_l.
    + intros key Hkey. by apply lookup_union_r.
  - intros ctx t (_ & Hctx & Hstamp) Hold.
    rewrite (get_context_expired sid t) in Hget by done.
    injection Hget as <- _. cbn [or_empty] in Hs |- *. by rewrite (right_id_L ∅ (∪)) in Hs |- *.
  - intros Habsent. rewrite get_context_absent in Hget by done.
    injection Hget as <- _. cbn [or_empty] in Hs |- *. by rewrite (right_id_L ∅ (∪)) in Hs |- *.
Qed.

(** *** The sweep *)

Lemma clean_expired_remaining (now : Q) cs sid (t : Q) :
  use_redis cs = false →
  memory_timestamps (_clean_expired_sessions now cs) !! sid = Some t →
  memory_timestamps cs !! sid = Some t ∧ (now - t <= inject_Z (context_ttl cs))%Q.
Proof.
  intros Hmem. rewrite clean_expired_timestamps by done.
  destruct (memory_timestamps cs !! sid) as [t'|] eqn:Ht; [|done].
  unfold Qgtb. destruct (Qle_bool (now - t') (inject_Z (context_ttl cs))) eqn:Hle; [|done].
  cbn. intros [= ->]. split; [done|]. by apply Qle_bool_iff.
Qed.

(** X3 ([_clean_expired_sessions], in memory): a sweep deletes from
    both dictionaries exactly the sessions whose timestamp lies more
    than the TTL before its clock reading and leaves the others as they
    were; no timestamp that remains is that old; and a second sweep at
    the same reading finds nothing more to delete. *)
Theorem sweep_removes_exactly_the_expired (now : Q) cs :
  use_redis cs = false →
  let cs' := _clean_expired_sessions now cs in
  (∀ sid t, memory_timestamps cs !! sid = Some t →
     (inject_Z (context_ttl cs) < now - t)%Q →
     memory_store cs' !! sid = None ∧ memory_timestamps cs' !! sid = None)
  ∧ (∀ sid t, memory_timestamps cs !! sid = Some t →
       (now - t <= inject_Z (context_ttl cs))%Q →
       memory_store cs' !! sid = memory_store cs !! sid
       ∧ memory_timestamps cs' !! sid = Some t)
  ∧ (∀ sid t, memory_timestamps cs' !! sid = Some t →
       memory_timestamps cs !! sid = Some t ∧ (now - t <= inject_Z (context_ttl cs))%Q)
  ∧ _clean_expired_sessions now cs' = cs'.
Proof.
  intros Hmem cs'.
  assert (Hleft : ∀ sid t, memory_timestamps cs' !! sid = Some t →
            memory_timestamps cs !! sid = Some t ∧ (now - t <= inject_Z (context_ttl cs))%Q).
  { intros sid t. by apply clean_expired_remaining. }
  split; [|split; [|split]]; [| |done|].
  - intros sid t Ht Hold. subst cs'.
    rewrite clean_expired_store, clean_expired_timestamps by done.
    by rewrite Ht, Qgtb_true.
  - intros sid t Ht Hfresh. subst cs'.
    rewrite clean_expired_store, clean_expired_timestamps by done.
    by rewrite Ht, Qgtb_false.
  - destruct (clean_expired_config now cs) as (Hmem' & Httl' & _). fold cs' in Hmem', Httl'.
    unfold _clean_expired_sessions at 1. rewrite Hmem', Hmem.
    replace (expired_sessions (context_ttl cs') now (memory_timestamps cs')) with (@nil string);
      [done|].
    symmetry. apply elem_of_nil_inv. intros sid [t [Ht Hgt]]%elem_of_expired_sessions.
    apply Hleft in Ht as [_ Hle]. rewrite Httl', Qgtb_false in Hgt; done.
Qed.

(** *** What a call does to the other sessions *)

(** X4 ([store_context], in memory): a write of one session leaves
    every other session as it was, with one exception: when the write
    brings the number of sessions to a multiple of ten the sweep runs,
    and it deletes the other session if its timestamp is more than the
    TTL old.  When the number is no multiple of ten nothing is deleted,
    however old. *)
Theorem store_context_and_other_sessions sid ctx (now sweep : Q) cs other :
  use_redis cs = false →
  other ≠ sid →
  let cs' := (store_context sid ctx now sweep cs).2 in
  let swept := (Z.of_nat (size (<[sid := ctx]> (memory_store cs))) mod 10 =? 0)%Z in
  ((memory_store cs' !! other = memory_store cs !! other
    ∧ memory_timestamps cs' !! other = memory_timestamps cs !! other)
   ∨ (swept = true
      ∧ (∃ t, memory_timestamps cs !! other = Some t
              ∧ (inject_Z (context_ttl cs) < sweep - t)%Q)
      ∧ memory_store cs' !! other = None
      ∧ memory_timestamps cs' !! other = None))
  ∧ (swept = false → cs' = stored sid ctx now cs)
  ∧ (swept = true → ∀ s t, memory_timestamps cs' !! s = Some t →
       (sweep - t <= inject_Z (context_ttl cs))%Q).
Proof.
  intros Hmem Hne cs' swept. subst cs'. rewrite store_context_memory by done.
  change (size (memory_store (stored sid ctx now cs)))
    with (size (<[sid := ctx]> (memory_store cs))). fold swept.
  assert (Hmem' : use_redis (stored sid ctx now cs) = false) by done.
  destruct swept; cbn [snd]; (split; [|split; [done|]]).
  - rewrite clean_expired_store, clean_expired_timestamps by done.
    cbn. rewrite !lookup_insert_ne by done.
    destruct (memory_timestamps cs !! other) as [t|] eqn:Ht; [|by left].
    unfold Qgtb. destruct (Qle_bool (sweep - t) (inject_Z (context_ttl cs))) eqn:Hle;
      cbn; [by left|right].
    split; [done|]. split; [|done]. exists t. split; [done|].
    apply Qnot_le_lt. intros Hle'%Qle_bool_iff. congruence.
  - intros _ s t Ht. by apply clean_expired_remaining in Ht as [_ ?].
  - left. cbn. by rewrite !lookup_insert_ne.
  - done.
Qed.

(** X5 ([get_context], in memory): a read never touches another
    session.  A hit returns the mapping the store holds, keeps it, and
    moves the session's timestamp to the reading taken after the
    comparison; a miss leaves nothing of the session behind, so an
    expired session is deleted by the read that finds it expired. *)
Theorem get_context_and_other_sessions sid (now refresh : Q) cs other :
  use_redis cs = false →
  other ≠ sid →
  let cs' := (get_context sid now refresh cs).2 in
  memory_store cs' !! other = memory_store cs !! other
  ∧ memory_timestamps cs' !! other = memory_timestamps cs !! other
  ∧ (∀ c, (get_context sid now refresh cs).1 = Return (Some c) →
       memory_store cs !! sid = Some c
       ∧ memory_store cs' !! sid = Some c
       ∧ memory_timestamps cs' !! sid = Some refresh)
  ∧ (keys_agree cs → (get_context sid now refresh cs).1 = Return None →
       memory_store cs' !! sid = None ∧ memory_timestamps cs' !! sid = None).
Proof.
  intros Hmem Hne cs'. subst cs'. rewrite get_context_memory by done.
  destruct (memory_store cs !! sid) as [c0|] eqn:Hs;
    [destruct (memory_timestamps cs !! sid) as [t|] eqn:Ht;
       [destruct (Qle_bool (now - t) (inject_Z (context_ttl cs)))|]|];
    cbn [fst snd].
  - cbn. rewrite lookup_insert_ne by done. split; [done|]. split; [done|]. split; [|done].
    intros c [= <-]. split; [done|]. split; [done|]. apply lookup_insert_eq.
  - destruct (drop_session_lookup sid cs other Hne) as [-> ->].
    split; [done|]. split; [done|]. split; [done|].
    intros _ _. split; apply lookup_delete_eq.
  - split; [done|]. split; [done|]. split; [done|]. intros Hagree _. exfalso.
    assert (sid ∈ dom (memory_store cs)) as Hin by (apply elem_of_dom; eauto).
    rewrite Hagree in Hin. apply elem_of_dom in Hin as [? ?]. congruence.
  - split; [done|]. split; [done|]. split; [done|]. intros Hagree _. split; [done|].
    apply not_elem_of_dom. rewrite <- Hagree. by apply not_elem_of_dom.
Qed.

(** X7 ([get_context] and [_clean_expired_sessions]): the read and the
    sweep draw the line between fresh and expired at the same place: at
    one clock reading, a session the store holds is returned by a read
    exactly when a sweep keeps it, and reported missing exactly when a
    sweep deletes it. *)
Theorem read_and_sweep_agree_on_expiry sid ctx (t now refresh : Q) cs :
  holds sid ctx t cs →
  ((get_context sid now refresh cs).1 = Return (Some ctx)
   ↔ memory_store (_clean_expired_sessions now cs) !! sid = Some ctx)
  ∧ ((get_context sid now refresh cs).1 = Return None
     ↔ memory_store (_clean_expired_sessions now cs) !! sid = None).
Proof.
  intros (Hmem & Hs & Ht).
  rewrite get_context_memory, clean_expired_store by done. rewrite Hs, Ht. unfold Qgtb.
  by destruct (Qle_bool (now - t) (inject_Z (context_ttl cs))).
Qed.

(** *** The store on Redis *)

(** X6 ([store_context] and [delete_context], on Redis): a failure of
    the codec or of the client is reported as [False], never raised.
    A mapping the codec cannot encode is refused before the client is
    called; otherwise the answer is [True] exactly when the client's
    call returns.  Neither call touches the in-memory dictionaries. *)
Theorem redis_write_failures_are_reported sid ctx (now sweep : Q) cs :
  use_redis cs = true →
  let key := "context:" +:+ sid in
  (∀ e, json_dumps ctx = Raise e → store_context sid ctx now sweep cs = (Return false, cs))
  ∧ (∀ payload e, json_dumps ctx = Return payload →
       (redis_setex key (context_ttl cs) payload (redis_client cs)).1 = Raise e →
       (store_context sid ctx now sweep cs).1 = Return false)
  ∧ (∀ payload, json_dumps ctx = Return payload →
       (redis_setex key (context_ttl cs) payload (redis_client cs)).1 = Return tt →
       (store_context sid ctx now sweep cs).1 = Return true)
  ∧ (∀ e, (redis_delete key (redis_client cs)).1 = Raise e →
       (delete_context sid cs).1 = Return false)
  ∧ ((redis_delete key (redis_client cs)).1 = Return tt →
       (delete_context sid cs).1 = Return true)
  ∧ memory_store (store_context sid ctx now sweep cs).2 = memory_store cs
  ∧ memory_timestamps (store_context sid ctx now sweep cs).2 = memory_timestamps cs
  ∧ memory_store (delete_context sid cs).2 = memory_store cs
  ∧ memory_timestamps (delete_context sid cs).2 = memory_timestamps cs.
Proof.
  intros Hredis key. unfold store_context, delete_context, on_redis. run_st.
  rewrite Hredis. fold key. repeat split.
  - intros e ->. by destruct cs.
  - intros payload e -> Hcall.
    by destruct (redis_setex key _ payload _) as [[[]|e'] client]; cbn in *.
  - intros payload -> Hcall.
    by destruct (redis_setex key _ payload _) as [[[]|e'] client]; cbn in *.
  - intros e Hcall. by destruct (redis_delete key _) as [[[]|e'] client]; cbn in *.
  - intros Hcall. by destruct (redis_delete key _) as [[[]|e'] client]; cbn in *.
  - destruct (json_dumps ctx) as [payload|e]; [|done].
    by destruct (redis_setex key _ payload _) as [[[]|e'] client].
  - destruct (json_dumps ctx) as [payload|e]; [|done].
    by destruct (redis_setex key _ payload _) as [[[]|e'] client].
  - by destruct (redis_delete key _) as [[[]|e'] client].
  - by destruct (redis_delete key _) as [[[]|e'] client].
Qed.

(** X8 ([get_context], on Redis): the read never raises.  It returns a
    mapping only when the client finds a non-empty payload, the renewal
    of the key's time to live (by the store's TTL) returns, and the
    codec decodes the payload; the client is then left as the renewal
    left it.  A key the client does not find is not renewed, and a
    failure of the lookup, of the renewal or of the decoding all read
    as a missing session. *)
Theorem redis_read_outcomes sid (now refresh : Q) cs :
  use_redis cs = true →
  let key := "context:" +:+ sid in
  (∀ e, (redis_get key (redis_client cs)).1 = Raise e →
     (get_context sid now refresh cs).1 = Return None)
  ∧ (∀ data client, redis_get key (redis_client cs) = (Return data, client) →
       (data = None ∨ data = Some "") →
       (get_context sid now refresh cs).1 = Return None
       ∧ redis_client (get_context sid now refresh cs).2 = client)
  ∧ (∀ bytes client, redis_get key (redis_client cs) = (Return (Some bytes), client) →
       str_truthy bytes = true →
       (∀ e, (redis_expire key (context_ttl cs) client).1 = Raise e →
          (get_context sid now refresh cs).1 = Return None)
       ∧ (∀ e, json_loads bytes = Raise e →
            (get_context sid now refresh cs).1 = Return None)
       ∧ (∀ loaded, (redis_expire key (context_ttl cs) client).1 = Return tt →
            json_loads bytes = Return loaded →
            (get_context sid now refresh cs).1 = Return (Some loaded)
            ∧ redis_client (get_context sid now refresh cs).2
              = (redis_expire key (context_ttl cs) client).2))
  ∧ memory_store (get_context sid now refresh cs).2 = memory_store cs
  ∧ memory_timestamps (get_context sid now refresh cs).2 = memory_timestamps cs.
Proof.
  intros Hredis key. unfold get_context, on_redis. run_st.
  rewrite Hredis. fold key. split; [|split; [|split]].
  - intros e Hcall. by destruct (redis_get key _) as [[data|e'] client]; cbn in *.
  - intros data client -> [-> | ->]; by cbn.
  - intros bytes client -> Htruthy. cbn. rewrite Htruthy. cbn. split; [|split].
    + intros e Hcall. by destruct (redis_expire key _ client) as [[[]|e'] client']; cbn in *.
    + intros e ->. by destruct (redis_expire key _ client) as [[[]|e'] client'].
    + intros loaded Hcall ->.
      by destruct (redis_expire key _ client) as [[[]|e'] client']; cbn in *.
  - destruct (redis_get key _) as [[[bytes|]|e'] client]; cbn; [|done|done].
    destruct (str_truthy bytes); cbn; [|done].
    destruct (redis_expire key _ client) as [[[]|e'] client']; cbn; [|done].
    by destruct (json_loads bytes).
Qed.

End ContextStoreMore.

(** * More on the orchestrator *)

Section OrchestratorMore.
Context {R : Type} {redis : RedisClient R} {json : JsonCodec} {text : StrMethods}.
Variable self : Collaborators.

(** *** The edges *)

(** X9 ([_build_workflow], the four [_should_route_to_*]): out of the
    router there is one edge for every key of the registry and none for
    anything else: the node that follows is the runner named by
    [current_agent] when that is a registered key, and the run ends
    otherwise.  The edges look at nothing else, so an error the router
    has put into the state does not hold the dispatch back. *)
Theorem router_edges_match_the_registry router state :
  runner_name (successor (_build_workflow self router) parse_intent state)
  = match current_agent state with
    | Some name => if bool_decide (is_Some (agents self !! name)) then Some name else None
    | None => None
    end
  ∧ (successor (_build_workflow self router) parse_intent state = END
     ↔ ∀ name, current_agent state = Some name → agents self !! name = None).
Proof.
  assert (Hreg : ∀ name, is_Some (agents self !! name)
            ↔ name ∈ ({[ "github"; "proposal_validator"; "lead_generation"; "outreach" ]}
                        : gset string)).
  { intros name. by rewrite <- elem_of_dom, registry_keys. }
  cbn. unfold _should_route_to_github, _should_route_to_validator,
    _should_route_to_lead_gen, _should_route_to_outreach.
  destruct (current_agent state) as [name|]; cycle 1.
  { split; [done|]. split; [done|]. by cbn. }
  destruct (decide (name = "github")) as [->|Hg].
  { split; [done|]. split; [done|]. intros Hnone. by specialize (Hnone _ eq_refl). }
  destruct (decide (name = "proposal_validator")) as [->|Hp].
  { split; [done|]. split; [done|]. intros Hnone. by specialize (Hnone _ eq_refl). }
  destruct (decide (name = "lead_generation")) as [->|Hl].
  { split; [done|]. split; [done|]. intros Hnone. by specialize (Hnone _ eq_refl). }
  destruct (decide (name = "outreach")) as [->|Ho].
  { split; [done|]. split; [done|]. intros Hnone. by specialize (Hnone _ eq_refl). }
  rewrite !bool_decide_eq_false_2 by congruence. cbn.
  assert (Hnone : agents self !! name = None).
  { apply eq_None_not_Some. rewrite Hreg, !elem_of_union, !elem_of_singleton. tauto. }
  rewrite Hnone. split; [done|]. split; [|done]. by intros _ ? [= <-].
Qed.

(** X10 ([_check_completion] after a runner): a dispatch that returns
    leaves no error in the state, whatever error it started from, and
    has the handler's result as output; the turn ends there exactly when
    the result's [complete] entry is truthy, and goes back to the router
    when the entry is falsy or missing. *)
Theorem dispatch_ends_the_turn_iff_complete router node name state state' :
  runner_name node = Some name →
  action (_build_workflow self router) node state = Return state' →
  ∃ agent_result,
    output state' = Some agent_result
    ∧ error state' = None
    ∧ (successor (_build_workflow self router) node state' = END
       ↔ truthy (dict_get agent_result "complete" (VBool false)) = true)
    ∧ (successor (_build_workflow self router) node state' = parse_intent
       ↔ truthy (dict_get agent_result "complete" (VBool false)) = false).
Proof.
  intros Hname. rewrite (action_runner self router node name Hname).
  destruct (run_agent_raises_or_merges self name (runner_label node) state)
    as [->|(agent & agent_result & live & fragment & _ & _ & _ & ->)]; [done|].
  intros [= <-]. exists agent_result. split; [done|]. split; [done|].
  assert (Hnext : successor (_build_workflow self router) node
            (mkAgentState (user_input state) (fragment ∪ live)
               (history state ++ [history_entry name state agent_result])
               (Some name) (Some agent_result) None)
          = if truthy (dict_get agent_result "complete" (VBool false)) then END
            else parse_intent).
  { destruct node; cbn in Hname; try done; cbn;
      (destruct (truthy (dict_get agent_result "complete" (VBool false))) eqn:Hc;
         [by rewrite (truthy_key_dict_truthy _ _ Hc) | by rewrite andb_false_r]). }
  rewrite Hnext. by destruct (truthy _).
Qed.

(** *** A handler that fails *)

(** X11 (the [except] branch of the runners): when the handler of a
    runner raises, or returns a context fragment that cannot be merged,
    the runner does not return a state that carries the handler's
    error: building that state hands [AgentState] the keyword [error]
    twice and raises in turn.  The runner node raises a [TypeError]
    whose text is the same whatever the handler raised, so the
    handler's own message is lost, and the run of the graph ends at
    that node with this exception. *)
Theorem failed_handler_makes_the_runner_raise router node name (agent : Agent) state :
  runner_name node = Some name →
  agents self !! name = Some agent →
  ((∃ e live, agent (user_input state) (context state) = (Raise e, live))
   ∨ (∃ agent_result live,
        agent (user_input state) (context state) = (Return agent_result, live)
        ∧ as_mapping (dict_get agent_result "context" (VDict ∅)) = None)) →
  action (_build_workflow self router) node state = Raise (duplicate_keyword "error")
  ∧ graph_step (_build_workflow self router) (Running node state)
    = Crashed (duplicate_keyword "error")
  ∧ ∀ fuel visited,
      graph_run (_build_workflow self router) (S fuel) (Running node state) visited
      = (Crashed (duplicate_keyword "error"), visited ++ [node]).
Proof.
  intros Hname Hagent Hfails.
  assert (Hrun : action (_build_workflow self router) node state
                 = Raise (duplicate_keyword "error")).
  { rewrite (action_runner self router node name Hname).
    by apply (run_agent_handler_fails self name _ agent). }
  split; [done|]. split; [cbn [graph_step]; by rewrite Hrun|].
  intros fuel visited. rewrite graph_run_S. cbn [graph_step]. rewrite Hrun.
  by rewrite graph_run_stopped.
Qed.

(** *** What a call leaves in the store *)



End OrchestratorMore.

(** * The GitHub agent *)

Section GithubFacts.
Context {text : StrMethods}.
Variable env : Github.Surroundings.

Lemma determine_operation_returns query :
  ∃ operation, Github._determine_operation env query = Return operation.
Proof.
  unfold Github._determine_operation, Res.try_except, Res.bind.
  destruct (Github.chat env _ _); eauto.
Qed.

(** The repository information [run] goes on with: text is refused by
    the first [.get], so it is a mapping. *)
Lemma fetch_repository_data_mapping repo_info repo_data :
  Github.fetch_repository_data env repo_info = Return repo_data →
  ∃ d, repo_info = VDict d.
Proof. destruct repo_info; try done. eauto. Qed.

(** A truthy [last_repo] in the context is what the agent uses. *)
Lemma extract_repo_info_stored query context last_repo :
  value_get (dict_get context "github" (VDict ∅)) "last_repo" = Return last_repo →
  truthy last_repo = true →
  Github._extract_repo_info env query context = Return last_repo.
Proof.
  intros Hget Htruthy. unfold Github._extract_repo_info, Res.bind.
  rewrite Hget, Htruthy. unfold dict_get, dict_getitem in *.
  destruct (context !! "github") as [github|]; cbn in *.
  - destruct github as [| | | |d]; try done. cbn in *. injection Hget as <-.
    unfold dict_get, dict_getitem in *. destruct (d !! "last_repo"); [done|].
    by cbn in Htruthy.
  - injection Hget as <-. by rewrite ?lookup_empty in Htruthy.
Qed.

Lemma extract_repo_info_asks query context last_repo :
  value_get (dict_get context "github" (VDict ∅)) "last_repo" = Return last_repo →
  truthy last_repo = false →
  Github._extract_repo_info env query context
  = match Github.chat env "Extract GitHub repository information from the text."
            (Github.extraction_request query) with
    | Return content => Return (VStr content)
    | Raise _ => Return Github.empty_info
    end.
Proof.
  intros Hget Htruthy. unfold Github._extract_repo_info, Res.bind, Res.try_except.
  rewrite Hget, Htruthy. by destruct (Github.chat env _ _).
Qed.

(** What [run] returns, when it returns. *)
Lemma github_run_returns query context r :
  Github.run env query context = Return r →
  ∃ repo_info operation repo_data,
    Github._extract_repo_info env query context = Return (VDict repo_info)
    ∧ truthy (VDict repo_info) = true
    ∧ Github.fetch_repository_data env (VDict repo_info) = Return repo_data
    ∧ Github._determine_operation env query = Return operation
    ∧ let result := Github._perform_operation env operation query (VDict repo_info) repo_data in
      r = {[ "response" := VStr (Github._generate_response env query operation result);
             "context" := VDict ({[ "github" := Github.namespace (VDict repo_info) operation result ]}
                                 ∪ context);
             "complete" := VBool true ]}.
Proof.
  unfold Github.run. rewrite or_empty_Some. unfold Res.bind at 1.
  destruct (Github._extract_repo_info env query context) as [repo_info|e] eqn:Hinfo; [|done].
  unfold Res.bind at 1.
  destruct (Github.fetch_repository_data env repo_info) as [repo_data|e] eqn:Hdata; [|done].
  destruct (fetch_repository_data_mapping _ _ Hdata) as [d ->].
  destruct (determine_operation_returns query) as [operation Hop]. rewrite Hop. cbn.
  intros [= <-]. exists d, operation, repo_data. repeat split; try done.
  unfold Github._extract_repo_info, Res.bind in Hinfo.
  destruct (value_get _ "last_repo") as [last_repo|e] eqn:Hget; [|done].
  destruct (truthy last_repo) eqn:Htruthy.
  - pose proof (extract_repo_info_stored query context last_repo Hget Htruthy) as Hstored.
    unfold Github._extract_repo_info, Res.bind in Hstored.
    rewrite Hget, Htruthy, Hinfo in Hstored. by injection Hstored as <-.
  - unfold Res.try_except in Hinfo.
    destruct (Github.chat env _ _); [done|]. by injection Hinfo as <-.
Qed.

(** X14 ([GithubAgent.run] with [_extract_repo_info]): in a session
    whose context names no repository yet, the agent cannot learn one
    from the request.  When the model answers the extraction request,
    its answer is text and the first [.get] on it raises
    [AttributeError], which [run] does not catch; when the model cannot
    be asked, [run] goes on with empty names, does not ask the client
    for repository data, and returns. *)
Theorem github_run_without_stored_repository query context last_repo :
  value_get (dict_get context "github" (VDict ∅)) "last_repo" = Return last_repo →
  truthy last_repo = false →
  (∀ content,
     Github.chat env "Extract GitHub repository information from the text."
       (Github.extraction_request query) = Return content →
     Github._extract_repo_info env query context = Return (VStr content)
     ∧ Github.run env query context = Raise (no_attribute (VStr content) "get"))
  ∧ (∀ e,
       Github.chat env "Extract GitHub repository information from the text."
         (Github.extraction_request query) = Raise e →
       ∃ operation,
         Github._determine_operation env query = Return operation
         ∧ let result :=
             Github._perform_operation env operation query Github.empty_info (VDict ∅) in
           Github.run env query context
           = Return {[ "response" := VStr (Github._generate_response env query operation result);
                       "context" :=
                         VDict ({[ "github" := Github.namespace Github.empty_info operation result ]}
                                ∪ context);
                       "complete" := VBool true ]}).
Proof.
  intros Hget Htruthy.
  pose proof (extract_repo_info_asks query context last_repo Hget Htruthy) as Hinfo.
  split.
  - intros content Hchat. rewrite Hchat in Hinfo. split; [done|].
    unfold Github.run. rewrite or_empty_Some. by rewrite Hinfo.
  - intros e Hchat. rewrite Hchat in Hinfo.
    destruct (determine_operation_returns query) as [operation Hop].
    exists operation. split; [done|]. cbv zeta.
    unfold Github.run. rewrite or_empty_Some. rewrite Hinfo. cbn [Res.bind].
    by rewrite Hop.
Qed.

(** X15 ([GithubAgent.run] with [_extract_repo_info]): when [run]
    returns, its result is marked complete, and the context in it is
    the one it was given with the [github] entry replaced and every
    other entry untouched.  The repository recorded there is a
    non-empty mapping, either the one the context already named or
    the one with empty names; and from then on every run on that
    context uses the recorded repository without asking the model, so
    empty names, once recorded, stay. *)
Theorem github_run_records_the_repository query context r :
  Github.run env query context = Return r →
  ∃ repo_info operation result updated,
    r !! "complete" = Some (VBool true)
    ∧ r !! "context" = Some (VDict updated)
    ∧ r !! "response" = Some (VStr (Github._generate_response env query operation result))
    ∧ updated !! "github" = Some (Github.namespace (VDict repo_info) operation result)
    ∧ (∀ key, key ≠ "github" → updated !! key = context !! key)
    ∧ repo_info ≠ ∅
    ∧ (value_get (dict_get context "github" (VDict ∅)) "last_repo" = Return (VDict repo_info)
       ∨ VDict repo_info = Github.empty_info)
    ∧ ∀ query', Github._extract_repo_info env query' updated = Return (VDict repo_info).
Proof.
  intros (repo_info & operation & repo_data & Hinfo & Htruthy & _ & _ & ->)%github_run_returns.
  eexists repo_info, operation, _, _. split; [done|]. split; [done|]. split; [done|].
  split; [by apply lookup_union_Some_l, lookup_singleton_eq|].
  split; [intros key Hne; by rewrite lookup_union_r by by apply lookup_singleton_ne|].
  split; [cbn in Htruthy; by case_bool_decide|].
  split.
  - unfold Github._extract_repo_info, Res.bind, Res.try_except in Hinfo.
    destruct (value_get _ "last_repo") as [last_repo|e] eqn:Hget; [|done].
    destruct (truthy last_repo) eqn:Hlast.
    + left. pose proof (extract_repo_info_stored query context last_repo Hget Hlast) as Hstored.
      unfold Github._extract_repo_info, Res.bind in Hstored.
      rewrite Hget, Hlast in Hstored. congruence.
    + right. destruct (Github.chat env _ _); [done|]. by injection Hinfo as <-.
  - intros query'. apply extract_repo_info_stored; [|done].
    unfold dict_get. by erewrite lookup_union_Some_l by apply lookup_singleton_eq.
Qed.

End GithubFacts.

(** * The GitHub agent under the orchestrator *)

Section GithubDispatch.
Context {R : Type} {redis : RedisClient R} {json : JsonCodec} {text : StrMethods}.
Variable self : Collaborators.
Variable env : Github.Surroundings.

(** X16 ([GithubAgent.run] under [_run_github_agent] and
    [_check_completion]): with the GitHub agent of the repository in
    the registry, the GitHub runner never sends a turn back to the
    router, whatever the state, the request and the model: either the
    agent returns, its result is complete, and the run ends at the
    runner with the agent's result as output and no error; or the agent
    raises and the run ends at the runner with the [TypeError] of the
    [except] branch. *)
Theorem github_runner_never_reroutes router state :
  GithubAgent self = pure_agent (Github.run env) →
  (∀ node' state',
     graph_step (_build_workflow self router) (Running github_agent state)
     ≠ Running node' state')
  ∧ ((∃ r state',
        Github.run env (user_input state) (context state) = Return r
        ∧ graph_step (_build_workflow self router) (Running github_agent state)
          = Finished state'
        ∧ output state' = Some r
        ∧ error state' = None
        ∧ current_agent state' = Some "github")
     ∨ (∃ e,
          Github.run env (user_input state) (context state) = Raise e
          ∧ graph_step (_build_workflow self router) (Running github_agent state)
            = Crashed (duplicate_keyword "error"))).
Proof.
  intros Hshipped.
  assert (Hagent : agents self !! "github" = Some (pure_agent (Github.run env))).
  { unfold agents. rewrite Hshipped. apply lookup_insert_eq. }
  assert (Hstep : (∃ r state',
             Github.run env (user_input state) (context state) = Return r
             ∧ graph_step (_build_workflow self router) (Running github_agent state)
               = Finished state'
             ∧ output state' = Some r
             ∧ error state' = None
             ∧ current_agent state' = Some "github")
          ∨ (∃ e,
               Github.run env (user_input state) (context state) = Raise e
               ∧ graph_step (_build_workflow self router) (Running github_agent state)
                 = Crashed (duplicate_keyword "error"))).
  { cbn [graph_step]. rewrite (action_runner self router github_agent "github" eq_refl).
    destruct (Github.run env (user_input state) (context state)) as [r|e] eqn:Hrun.
    - left. apply github_run_returns in Hrun as Hshape.
      destruct Hshape as (repo_info & operation & repo_data & _ & _ & _ & _ & Hr).
      cbv zeta in Hr.
      assert (Hcomplete : truthy (dict_get r "complete" (VBool false)) = true) by by subst r.
      assert (Hfragment : ∃ fragment,
                as_mapping (dict_get r "context" (VDict ∅)) = Some fragment)
        by (subst r; by eexists).
      destruct Hfragment as [fragment Hfragment].
      exists r. eexists. split; [done|].
      unfold run_agent, on_context, dict_getitem, dict_update, pure_agent. run_st.
      rewrite Hagent. unfold pure_agent. run_st. rewrite Hrun. cbn. rewrite Hfragment. cbn.
      unfold _check_completion. cbn.
      by rewrite Hcomplete, (truthy_key_dict_truthy _ _ Hcomplete).
    - right. exists e. split; [done|].
      rewrite (run_agent_handler_fails self "github" _ (pure_agent (Github.run env)) state);
        [done|done|].
      left. exists e, (context state). unfold pure_agent. run_st. by rewrite Hrun. }
  split; [|done].
  intros node' state'.
  by destruct Hstep as [(r & final & _ & -> & _)|(e & _ & ->)].
Qed.

End GithubDispatch.

(** * The outreach agent *)

Section OutreachFacts.
Context {text : StrMethods}.
Variable env : Outreach.Surroundings.

(** X17 ([_extract_outreach_parameters] and
    [_determine_outreach_type]): whatever the request, the context and
    the model's answers, the parameters extracted are the six basic
    ones: an answer of the model is text, the first [.get] on it raises
    and the [except] branch returns the defaults, as it does when the
    model cannot be asked.  The outreach type is always one of the
    three template names, [contributor_invitation] for every answer
    that is not one of the four options. *)
Theorem outreach_parameters_are_the_basic_ones query context :
  Outreach._extract_outreach_parameters env query context = Return Outreach.basic_parameters
  ∧ ∀ params, ∃ kind,
      Outreach._determine_outreach_type env query params = Return kind
      ∧ kind ∈ ["contributor_invitation"; "issue_response"; "pr_review"]
      ∧ ∀ content,
          Outreach.chat env "Determine the type of outreach content needed."
            (Outreach.type_request query) = Return content →
          lower (strip content) ∉ ["email"; "issue_reply"; "pr_comment"; "general_outreach"] →
          kind = "contributor_invitation".
Proof.
  split.
  - unfold Outreach._extract_outreach_parameters, Res.try_except, Res.bind.
    by destruct (Outreach.chat env _ _).
  - intros params. unfold Outreach._determine_outreach_type, Res.try_except, Res.bind.
    destruct (Outreach.chat env _ _) as [content|e].
    + eexists. split; [done|]. unfold Outreach.type_mapping.
      destruct (decide (lower (strip content) = "email")) as [Heq|Hemail];
        [rewrite Heq; split;
           [by left | intros ? [= <-] Hnot; exfalso; apply Hnot; rewrite Heq; by left]|].
      destruct (decide (lower (strip content) = "issue_reply")) as [Heq|Hreply];
        [rewrite Heq; split;
           [by right; left
           | intros ? [= <-] Hnot; exfalso; apply Hnot; rewrite Heq; by right; left]|].
      destruct (decide (lower (strip content) = "pr_comment")) as [Heq|Hcomment];
        [rewrite Heq; split;
           [by do 2 right; left
           | intros ? [= <-] Hnot; exfalso; apply Hnot; rewrite Heq; by do 2 right; left]|].
      destruct (decide (lower (strip content) = "general_outreach")) as [Heq|Hgeneral];
        [rewrite Heq; split;
           [by left
           | intros ? [= <-] Hnot; exfalso; apply Hnot; rewrite Heq; by do 3 right; left]|].
      rewrite !lookup_insert_ne, lookup_singleton_ne by done. cbn.
      split; [by left|done].
    + eexists. split; [done|]. split; [by left|]. by intros.
Qed.

End OutreachFacts.

(** * The HTTP entry point *)

Section ApiFacts.
Context {R : Type} {redis : RedisClient R} {json : JsonCodec} {text : StrMethods}.
Variable orchestrator : Collaborators.
Variable coerce_str : value → result string.

(** X18 ([run_agent] over [run_workflow]): the endpoint answers every
    request with status 200 and a response model, never with status
    500: the session identifier is the request's, or the generated one
    when the request has none or an empty one, and it is the identifier
    the store was asked for; [agent_used] and [output] are empty and
    [error] is the workflow error of the router node.  The store is
    read once and not written. *)
Theorem run_agent_answers_with_the_workflow_error request uuid4 uuid4' fuel clock (w : World R) :
  uuid4 ≠ "" →
  let sid := given_or_generated (AgentRequest.session_id request) uuid4 in
  ∃ w',
    Api.run_agent orchestrator coerce_str request uuid4 uuid4' (S fuel) clock w
    = Some (Ok (AgentResponse.mk sid None None
                  (Some ("Workflow error: " +:+ str (duplicate_keyword "error")))), w')
    ∧ store_calls w' = store_calls w ++ [CallGet sid]
    ∧ nodes_run w' = nodes_run w ++ [parse_intent].
Proof.
  intros Huuid sid. unfold Api.run_agent. fold sid. rewrite run_workflow_eval. cbv zeta.
  assert (Hsid : given_or_generated (Some sid) uuid4' = sid).
  { unfold given_or_generated at 1. unfold str_truthy.
    destruct (String.eqb_spec sid "") as [Hempty|]; [|done]. exfalso. subst sid.
    unfold given_or_generated, str_truthy in Hempty.
    destruct (AgentRequest.session_id request) as [given|]; [|done].
    by destruct (String.eqb_spec given ""). }
  rewrite Hsid. cbn. eauto.
Qed.

End ApiFacts.

(** * More scenarios, evaluated *)

(** X1, an instance: the fixture's session is deleted; an hour of
    traffic on other sessions later a read still finds nothing. *)
Lemma deleted_session_is_gone_witness :
  (delete_context "test_session" test_store).1 = Return true
  ∧ (get_context "test_session" 10 10
       (run_ops busy_hour (delete_context "test_session" test_store).2)).1 = Return None.
Proof.
  destruct (deleted_session_is_gone "test_session" busy_hour 10 10 test_store)
    as (Hok & _ & _ & _ & Hgone & _).
  - reflexivity.
  - repeat constructor; done.
  - split; [exact Hok|exact Hgone].
Defined.

(** X2, an instance: an update of the fixture's fresh session keeps
    [test_key] and adds the new key. *)
Lemma update_context_merges_witness :
  (update_context "test_session" {[ "k" := VInt 1 ]} 10 10 11 11 test_store).1 = Return true
  ∧ memory_store (update_context "test_session" {[ "k" := VInt 1 ]} 10 10 11 11 test_store).2
      !! "test_session"
    = Some ({[ "k" := VInt 1 ]} ∪ test_context).
Proof.
  destruct (update_context_merges "test_session" {[ "k" := VInt 1 ]} 10 10 11 11 test_store
              eq_refl) as (Hok & _ & Hfresh & _).
  - vm_compute. discriminate.
  - split; [exact Hok|].
    destruct (Hfresh test_context 0%Q test_store_holds) as [Hstored _].
    + vm_compute. discriminate.
    + exact Hstored.
Defined.

(** X3, an instance: a sweep at 4000 seconds deletes the fixture's
    session, written at 0 with a TTL of 3600. *)
Lemma sweep_removes_exactly_the_expired_witness :
  memory_store (_clean_expired_sessions 4000 test_store) !! "test_session" = None
  ∧ memory_timestamps (_clean_expired_sessions 4000 test_store) !! "test_session" = None.
Proof.
  destruct (sweep_removes_exactly_the_expired 4000 test_store) as (Hold & _).
  - reflexivity.
  - apply (Hold "test_session" 0%Q).
    + vm_compute. reflexivity.
    + vm_compute. reflexivity.
Defined.

(** X4, an instance: a write of a second session at 4000 seconds runs
    no sweep, so the fixture's expired session stays in memory. *)
Lemma store_context_and_other_sessions_witness :
  (store_context "s2" ∅ 4000 4000 test_store).2 = stored "s2" ∅ 4000 test_store
  ∧ memory_store (stored "s2" ∅ 4000 test_store) !! "test_session" = Some test_context.
Proof.
  destruct (store_context_and_other_sessions "s2" ∅ 4000 4000 test_store "test_session")
    as (_ & Hkept & _).
  - reflexivity.
  - done.
  - split; [apply Hkept; vm_compute; reflexivity | vm_compute; reflexivity].
Defined.

(** X5, an instance: a read of an unknown session leaves the
    fixture's session as it is. *)
Lemma get_context_and_other_sessions_witness :
  memory_store (get_context "s2" 10 10 test_store).2 !! "test_session"
  = memory_store test_store !! "test_session"
  ∧ memory_timestamps (get_context "s2" 10 10 test_store).2 !! "test_session"
    = memory_timestamps test_store !! "test_session".
Proof.
  destruct (get_context_and_other_sessions "s2" 10 10 test_store "test_session")
    as (Hs & Ht & _).
  - reflexivity.
  - done.
  - split; [exact Hs|exact Ht].
Defined.

(** X6, an instance: with a codec that rejects the mapping the write
    answers [False] and the store is as before. *)
Lemma redis_write_failures_are_reported_witness :
  store_context "s1" test_context 0 0 unreachable_store = (Return false, unreachable_store)
  ∧ (delete_context "s1" unreachable_store).1 = Return false.
Proof.
  destruct (redis_write_failures_are_reported "s1" test_context 0 0 unreachable_store)
    as (Hcodec & _ & _ & Hdelete & _).
  - reflexivity.
  - split.
    + by eapply Hcodec.
    + by eapply Hdelete.
Defined.

(** X7, an instance: at 4000 seconds the fixture's session has expired
    for the read and for the sweep alike. *)
Lemma read_and_sweep_agree_on_expiry_witness :
  ((get_context "test_session" 4000 4000 test_store).1 = Return (Some test_context)
   ↔ memory_store (_clean_expired_sessions 4000 test_store) !! "test_session"
     = Some test_context)
  ∧ ((get_context "test_session" 4000 4000 test_store).1 = Return None
     ↔ memory_store (_clean_expired_sessions 4000 test_store) !! "test_session" = None).
Proof.
  apply (read_and_sweep_agree_on_expiry "test_session" test_context 0 4000 4000 test_store).
  vm_compute. done.
Defined.

(** X8, an instance: with a server that cannot be reached a read
    answers [None]. *)
Lemma redis_read_outcomes_witness :
  (get_context "s1" 0 0 unreachable_store).1 = Return None.
Proof.
  destruct (redis_read_outcomes "s1" 0 0 unreachable_store) as (Hlookup & _).
  - reflexivity.
  - by eapply Hlookup.
Defined.

(** X10, an instance: [issues_agent] marks its result complete, so the
    turn ends after the dispatch. *)
Lemma dispatch_ends_the_turn_iff_complete_witness :
  ∃ agent_result,
    output overwritten_state = Some agent_result
    ∧ error overwritten_state = None
    ∧ (successor (_build_workflow overwriting_orchestrator
                    (_parse_intent overwriting_orchestrator)) github_agent
         overwritten_state = END
       ↔ truthy (dict_get agent_result "complete" (VBool false)) = true)
    ∧ (successor (_build_workflow overwriting_orchestrator
                    (_parse_intent overwriting_orchestrator)) github_agent
         overwritten_state = parse_intent
       ↔ truthy (dict_get agent_result "complete" (VBool false)) = false).
Proof.
  apply (dispatch_ends_the_turn_iff_complete overwriting_orchestrator
           (_parse_intent overwriting_orchestrator)
           github_agent "github" nested_state overwritten_state).
  - reflexivity.
  - vm_compute. reflexivity.
Defined.

(** X11, an instance: the handler reports a rate limit; the runner
    raises the [TypeError] of the duplicated keyword. *)
Lemma failed_handler_makes_the_runner_raise_witness :
  action (_build_workflow failing_orchestrator (_parse_intent failing_orchestrator))
    github_agent nested_state
  = Raise (duplicate_keyword "error")
  ∧ graph_step (_build_workflow failing_orchestrator (_parse_intent failing_orchestrator))
      (Running github_agent nested_state)
    = Crashed (duplicate_keyword "error")
  ∧ ∀ fuel visited,
      graph_run (_build_workflow failing_orchestrator (_parse_intent failing_orchestrator))
        (S fuel) (Running github_agent nested_state) visited
      = (Crashed (duplicate_keyword "error"), visited ++ [github_agent]).
Proof.
  apply (failed_handler_makes_the_runner_raise failing_orchestrator
           (_parse_intent failing_orchestrator) github_agent "github" failing_agent
           nested_state).
  - reflexivity.
  - vm_compute. reflexivity.
  - left. by eexists _, _.
Defined.

(** X14, an instance: the model answers the extraction request. *)
Lemma github_run_without_stored_repository_witness :
  Github.run answering_model "list open issues" ∅
  = Raise (no_attribute (VStr "{'owner': 'octocat', 'repo_name': 'hello-world'}") "get").
Proof.
  destruct (github_run_without_stored_repository answering_model "list open issues" ∅ VNone)
    as (Hanswered & _).
  - vm_compute. reflexivity.
  - reflexivity.
  - by eapply Hanswered.
Defined.

(** X15, an instance: the model cannot be reached; the empty names are
    recorded and used from then on. *)
Lemma github_run_records_the_repository_witness :
  ∃ repo_info operation result updated,
    first_answer !! "complete" = Some (VBool true)
    ∧ first_answer !! "context" = Some (VDict updated)
    ∧ first_answer !! "response"
      = Some (VStr (Github._generate_response unreachable_model "list open issues"
                      operation result))
    ∧ updated !! "github" = Some (Github.namespace (VDict repo_info) operation result)
    ∧ (∀ key, key ≠ "github" → updated !! key = (∅ : gmap string value) !! key)
    ∧ repo_info ≠ ∅
    ∧ (value_get (dict_get ∅ "github" (VDict ∅)) "last_repo" = Return (VDict repo_info)
       ∨ VDict repo_info = Github.empty_info)
    ∧ ∀ query',
        Github._extract_repo_info unreachable_model query' updated = Return (VDict repo_info).
Proof.
  apply (github_run_records_the_repository unreachable_model "list open issues" ∅ first_answer).
  vm_compute. reflexivity.
Defined.

(** X16, an instance: the GitHub agent of the repository with a model
    that cannot be reached. *)
Lemma github_runner_never_reroutes_witness :
  (∀ node' state',
     graph_step (_build_workflow (github_orchestrator unreachable_model)
                   (_parse_intent (github_orchestrator unreachable_model)))
       (Running github_agent nested_state)
     ≠ Running node' state')
  ∧ ((∃ r state',
        Github.run unreachable_model (user_input nested_state) (context nested_state)
        = Return r
        ∧ graph_step (_build_workflow (github_orchestrator unreachable_model)
                        (_parse_intent (github_orchestrator unreachable_model)))
            (Running github_agent nested_state)
          = Finished state'
        ∧ output state' = Some r
        ∧ error state' = None
        ∧ current_agent state' = Some "github")
     ∨ (∃ e,
          Github.run unreachable_model (user_input nested_state) (context nested_state)
          = Raise e
          ∧ graph_step (_build_workflow (github_orchestrator unreachable_model)
                          (_parse_intent (github_orchestrator unreachable_model)))
              (Running github_agent nested_state)
            = Crashed (duplicate_keyword "error"))).
Proof.
  apply (github_runner_never_reroutes (github_orchestrator unreachable_model)
           unreachable_model
           (_parse_intent (github_orchestrator unreachable_model)) nested_state).
  reflexivity.
Defined.

(** X18, an instance: a request without a session identifier. *)
Lemma run_agent_answers_with_the_workflow_error_witness :
  ∃ w',
    Api.run_agent issues_orchestrator (λ v, Return (type_name v))
      (AgentRequest.mk "list open issues" None) "uuid-1" "uuid-2" 3 noon fresh_world
    = Some (Ok (AgentResponse.mk "uuid-1" None None
                  (Some ("Workflow error: " +:+ str (duplicate_keyword "error")))), w')
    ∧ store_calls w' = store_calls fresh_world ++ [CallGet "uuid-1"]
    ∧ nodes_run w' = nodes_run fresh_world ++ [parse_intent].
Proof.
  apply (run_agent_answers_with_the_workflow_error issues_orchestrator
           (λ v, Return (type_name v)) (AgentRequest.mk "list open issues" None)
           "uuid-1" "uuid-2" 2 noon fresh_world).
  done.
Defined.
